(** * A shallow embedding of the benchmark harness

    [bench.py] runs every verification tool on every case and records one
    [Result] per run; [gen_graphs.py] aggregates the persisted results into
    the tables that are plotted.  Both programs are embedded below as Rocq
    functions, followed by the properties proved about them.

    Conventions of the embedding.
    - A Python [str] is a [string]; its characters are the code points
      below 256.  The newline character is [nl].
    - A Python [int] is a [Z].  A finite Python [float], and a numeric
      value stored in the results database, is the rational number it
      denotes ([Q]); the programs only compare such values ([<], [min]),
      and these comparisons are exact.
    - A Python exception or a call of [exit] ends the computation with
      [Raise e]; a normal return is [Ret v].
    - The files on disk are a finite map from path to contents.
    - The processes that the programs start (the tools under runlim and
      time, sqlite3, gnuplot) are not part of the embedding: what they
      produce is an input of the functions that read it.  What bench.py
      prints on the console is left out. *)

From Stdlib Require Import ZArith QArith Qminmax Strings.String Strings.Ascii List Lia.
From stdpp Require Import base option gmap strings list sorting pretty.

Open Scope string_scope.

(** ** Python built-ins used by the two programs *)

Module Py.

Definition nl : ascii := "010"%char.

(** The characters below 256 for which [str.isspace] holds; they are the
    ones removed by [str.strip] and skipped by [str.split()] and [int]. *)
Definition is_space (c : ascii) : bool :=
  let n := nat_of_ascii c in
  ((9 <=? n) && (n <=? 13) || (28 <=? n) && (n <=? 32)
   || (n =? 133) || (n =? 160))%nat.

(** [s.startswith(p)] *)
Definition startswith (s p : string) : bool := String.prefix p s.

Fixpoint lstrip (s : string) : string :=
  match s with
  | EmptyString => EmptyString
  | String c s' => if is_space c then lstrip s' else s
  end.

Fixpoint rstrip (s : string) : string :=
  match s with
  | EmptyString => EmptyString
  | String c s' =>
      match rstrip s' with
      | EmptyString => if is_space c then EmptyString else String c EmptyString
      | r => String c r
      end
  end.

(** [s.strip()] *)
Definition strip (s : string) : string := lstrip (rstrip s).

(** [s.split] at the newline: the pieces between newlines; never empty. *)
Fixpoint split_nl (s : string) : list string :=
  match s with
  | EmptyString => [EmptyString]
  | String c s' =>
      if Ascii.eqb c nl then EmptyString :: split_nl s'
      else match split_nl s' with
           | h :: t => String c h :: t
           | [] => [String c EmptyString]
           end
  end.

(** The lines produced by iterating over a file opened in text mode:
    every line keeps its terminating newline, a last unterminated line is
    produced as it is, and an empty file has no line. *)
Fixpoint file_lines (s : string) : list string :=
  match s with
  | EmptyString => []
  | String c s' =>
      if Ascii.eqb c nl then String c EmptyString :: file_lines s'
      else match file_lines s' with
           | h :: t => String c h :: t
           | [] => [String c EmptyString]
           end
  end.

Definition digit_val (c : ascii) : option Z :=
  let n := nat_of_ascii c in
  if ((48 <=? n) && (n <=? 57))%nat then Some (Z.of_nat (n - 48)) else None.

(** Digits of a decimal literal after its first digit: a digit, or one
    underscore followed by a digit. [acc] is the value read so far. *)
Fixpoint int_digits (acc : Z) (s : string) : option Z :=
  match s with
  | EmptyString => Some acc
  | String c s' =>
      match digit_val c with
      | Some d => int_digits (10 * acc + d) s'
      | None =>
          if Ascii.eqb c "_" then
            match s' with
            | String c' s'' =>
                match digit_val c' with
                | Some d => int_digits (10 * acc + d) s''
                | None => None
                end
            | EmptyString => None
            end
          else None
      end
  end.

Definition int_unsigned (s : string) : option Z :=
  match s with
  | String c s' =>
      match digit_val c with
      | Some d => int_digits d s'
      | None => None
      end
  | EmptyString => None
  end.

(** [int(s)] in base ten; [None] stands for [ValueError].  The limit that
    recent versions put on the number of digits is left out. *)
Definition int (s : string) : option Z :=
  match strip s with
  | String "+" s' => int_unsigned s'
  | String "-" s' => Z.opp <$> int_unsigned s'
  | s' => int_unsigned s'
  end.

(** The first field of [s.split()]: [None] stands for the [IndexError] of
    indexing the empty list. *)
Fixpoint until_space (s : string) : string :=
  match s with
  | EmptyString => EmptyString
  | String c s' => if is_space c then EmptyString else String c (until_space s')
  end.

Definition first_field (s : string) : option string :=
  match lstrip s with
  | EmptyString => None
  | s' => Some (until_space s')
  end.

Fixpoint after_last_slash (s : string) : option string :=
  match s with
  | EmptyString => None
  | String c s' =>
      match after_last_slash s' with
      | Some r => Some r
      | None => if Ascii.eqb c "/" then Some s' else None
      end
  end.

(** [os.path.basename(s)] *)
Definition basename (s : string) : string :=
  match after_last_slash s with
  | Some r => r
  | None => s
  end.

(** [s.replace(c, r)] for a single character [c]. *)
Fixpoint replace_char (c : ascii) (r s : string) : string :=
  match s with
  | EmptyString => EmptyString
  | String c' s' =>
      if Ascii.eqb c' c then r +:+ replace_char c r s'
      else String c' (replace_char c r s')
  end.

(** [min(a, b)] on numbers: [b] when [b < a], else [a]. *)
Definition min (a b : Q) : Q :=
  match Qcompare b a with
  | Lt => b
  | _ => a
  end.

(** [a < b] for a float [a] and a number [b]. *)
Definition lt (a b : Q) : bool :=
  match Qcompare a b with
  | Lt => true
  | _ => false
  end.

Definition tab : ascii := "009"%char.

(** [s.replace(p, r)] for a pattern [p] of the two characters [a] and [b]:
    the occurrences are found from left to right and do not overlap. *)
Fixpoint replace2 (a b : ascii) (r s : string) : string :=
  match s with
  | EmptyString => EmptyString
  | String c t =>
      match t with
      | String d s' =>
          if Ascii.eqb c a && Ascii.eqb d b then r +:+ replace2 a b r s'
          else String c (replace2 a b r t)
      | EmptyString => String c EmptyString
      end
  end.

(** The characters below 256 at which [str.splitlines] ends a line. *)
Definition is_linebreak (c : ascii) : bool :=
  let n := nat_of_ascii c in
  ((10 <=? n) && (n <=? 13) || (28 <=? n) && (n <=? 30) || (n =? 133))%nat.

(** [s.splitlines()]: the lines without their terminators; a carriage
    return followed by a newline is one terminator, and a terminator at the
    end of the text does not start a last empty line. *)
Fixpoint splitlines (s : string) : list string :=
  match s with
  | EmptyString => []
  | String c t =>
      if is_linebreak c then
        match t with
        | String d s' =>
            if Ascii.eqb c "013" && Ascii.eqb d nl then EmptyString :: splitlines s'
            else EmptyString :: splitlines t
        | EmptyString => [EmptyString]
        end
      else match splitlines t with
           | h :: rest => String c h :: rest
           | [] => [String c EmptyString]
           end
  end.

End Py.

(** ** Exceptions *)

Module Exc.

(** The exceptions that the two programs raise; [SystemExit] is a call of
    [exit] with the given status. *)
Inductive exn : Type :=
| ValueError (msg : string)
| IndexError
| AssertionError
| OSError (path : string)
| SystemExit (code : Z).

Inductive res (A : Type) : Type :=
| Ret (a : A)
| Raise (e : exn).
Arguments Ret {A} a.
Arguments Raise {A} e.

#[global] Instance res_ret : MRet res := @Ret.
#[global] Instance res_bind : MBind res := fun A B f m =>
  match m with
  | Ret a => f a
  | Raise e => Raise e
  end.

Fixpoint mapM_res {A B : Type} (f : A → res B) (l : list A) : res (list B) :=
  match l with
  | [] => Ret []
  | a :: l' => b ← f a; bs ← mapM_res f l'; mret (b :: bs)
  end.

End Exc.

Import Exc.

(** ** bench.py *)

Module Bench.

(** The options parsed once by [main] and read everywhere ([opts]). *)
Record Options : Type := mkOptions {
  verbose : bool;
  seed : Z;
  solc_version : string;
  timeout : Z;
  limit : Z;
}.

Definition determine_dstest (sol_file : string) : res bool :=
  if Py.startswith sol_file "src/safe/ds-test"
     || Py.startswith sol_file "src/unsafe/ds-test" then Ret true
  else if Py.startswith sol_file "src/safe/1tx-abstract"
          || Py.startswith sol_file "src/unsafe/1tx-abstract" then Ret false
  else Raise (ValueError
    ("solidity file is neither in 'ds-test' nor in '1tx-abstract' directory: "
       +:+ sol_file)).

Definition determine_expected (sol_file : string) : res string :=
  if Py.startswith sol_file "src/safe" then Ret "safe"
  else if Py.startswith sol_file "src/unsafe" then Ret "unsafe"
  else Raise (ValueError
    ("solidity file is not in the safe or unsafe directories: " +:+ sol_file)).

Record Case : Type := mkCase {
  contract : string;
  json_fname : string;
  sol_file : string;
  ds : bool;
  fun_ : string;
  expected : string;
}.

(** [Case.__init__]: the expected outcome is computed from the path; when
    that raises, no [Case] exists. *)
Definition Case_init (contract json_fname sol_file : string) (ds : bool)
    (fn : string) : res Case :=
  e ← determine_expected sol_file;
  mret (mkCase contract json_fname sol_file ds fn e).

Definition get_name (c : Case) : string :=
  if ds c then sol_file c +:+ ":" +:+ contract c +:+ ":" +:+ fun_ c
  else sol_file c +:+ ":" +:+ contract c.

(** [get_prove_funcs]: the names of the ABI entries that have a name
    starting with [prove]; an entry without a name is [None]. *)
Definition get_prove_funcs (abi : list (option string)) : list string :=
  omap (fun e => match e with
                 | Some f => if Py.startswith f "prove" then Some f else None
                 | None => None
                 end) abi.

(** The body of the loop of [gather_cases] for one build artifact
    [json_fname] of contract [c], whose JSON gives the source path
    [sol_file] and the ABI [abi]. *)
Definition cases_of_artifact (c json_fname sol_file : string)
    (abi : list (option string)) : res (list Case) :=
  if Py.startswith json_fname "out/build-info" then Ret []
  else if Py.startswith sol_file "src/common/" || Py.startswith sol_file "lib/"
  then Ret []
  else
    ds_test ← determine_dstest sol_file;
    if ds_test : bool then
      mapM_res (fun f => Case_init c json_fname sol_file true f)
               (get_prove_funcs abi)
    else
      cs ← Case_init c json_fname sol_file false "";
      mret [cs].

(** *** Scratch files *)

(** The files on disk: path to contents. *)
Abbreviation files := (gmap string string).

(** A computation that reads and changes the files and may raise. *)
Definition M (A : Type) : Type := files → files * res A.

#[global] Instance M_ret : MRet M := fun A a fs => (fs, Ret a).
#[global] Instance M_bind : MBind M := fun A B f m fs =>
  match m fs with
  | (fs', Ret a) => f a fs'
  | (fs', Raise e) => (fs', Raise e)
  end.

Definition raise {A : Type} (e : exn) : M A := fun fs => (fs, Raise e).

Definition lift {A : Type} (r : res A) : M A := fun fs => (fs, r).

(** The loop of [unique_file]. [tries] is the number of names still to be
    tried: the loop starts at [counter = 1] and exits the process once
    [counter] exceeds 300, so it tries the 300 names numbered 1 to 300.
    Exclusive creation fails exactly when the path exists. *)
Fixpoint unique_file_loop (tries counter : nat) (fname_begin fname_end : string)
    : M string :=
  match tries with
  | O => raise (SystemExit (-1))
  | S tries' =>
      let fname := "out/" +:+ fname_begin +:+ "_" +:+ pretty counter +:+ fname_end in
      fun fs =>
        match fs !! fname with
        | None => (<[fname := ""]> fs, Ret fname)
        | Some _ => unique_file_loop tries' (S counter) fname_begin fname_end fs
        end
  end.

Definition unique_file (fname_begin : string) : M string :=
  unique_file_loop 300 1 fname_begin ".out".

(** [open(fname, 'r')] followed by reading the whole file. *)
Definition read_file (fname : string) : M string := fun fs =>
  match fs !! fname with
  | Some text => (fs, Ret text)
  | None => (fs, Raise (OSError fname))
  end.

(** [os.unlink(fname)] *)
Definition unlink (fname : string) : M unit := fun fs =>
  match fs !! fname with
  | Some _ => (delete fname fs, Ret tt)
  | None => (fs, Raise (OSError fname))
  end.

(** *** The patterns matched against the reports and the tool's output *)

(** The literal text [p] matched at the start of [s]; the value is the rest
    of [s]. *)
Fixpoint strip_prefix (p s : string) : option string :=
  match p with
  | EmptyString => Some s
  | String c p' =>
      match s with
      | String c' s' => if Ascii.eqb c c' then strip_prefix p' s' else None
      | EmptyString => None
      end
  end.

(** One [.] of a pattern: any character but the newline. *)
Definition dot (s : string) : option string :=
  match s with
  | String c s' => if Ascii.eqb c Py.nl then None else Some s'
  | EmptyString => None
  end.

(** Any characters but the newline, then [p], matched at the start of
    [s]: [p] occurs in [s] with no newline before it. *)
Fixpoint dotstar_then (p s : string) : bool :=
  if String.prefix p s then true
  else match s with
       | String c s' => if Ascii.eqb c Py.nl then false else dotstar_then p s'
       | EmptyString => false
       end.

(** The longest newline-free prefix of [s], which is what a greedy group
    of any characters takes, and the rest of [s]. *)
Fixpoint line_span (s : string) : string * string :=
  match s with
  | EmptyString => (EmptyString, EmptyString)
  | String c s' =>
      if Ascii.eqb c Py.nl then (EmptyString, s)
      else let '(a, b) := line_span s' in (String c a, b)
  end.

(** [$] matches at the end of the string and before a last newline. *)
Definition at_dollar (s : string) : bool :=
  String.eqb s EmptyString || String.eqb s (String Py.nl EmptyString).

(** [re.match] of the out-of-time pattern on a line of the runlim report:
    one character, [runlim], one character, [ status:], any characters,
    [out of time]; the characters are other than the newline. *)
Definition match_out_of_time (l : string) : bool :=
  let rest : option string :=
    s1 ← dot l; s2 ← strip_prefix "runlim" s1; s3 ← dot s2;
    strip_prefix " status:" s3 in
  match rest with
  | Some s => dotstar_then "out of time" s
  | None => false
  end.

(** [re.match] of the tagged pattern: [result: ], then the group (any
    characters but the newline, as many as possible), then [$].  The
    value is [match.group(1)]. *)
Definition match_result (l : string) : option string :=
  s ← strip_prefix "result: " l;
  let '(g, rest) := line_span s in
  if at_dollar rest then Some g else None.

(** [re.match] of [Maximum resident set size ], one character, [kbytes],
    one character, [: ] and the group. *)
Definition match_max_rss (l : string) : option string :=
  s1 ← strip_prefix "Maximum resident set size " l; s2 ← dot s1;
  s3 ← strip_prefix "kbytes" s2; s4 ← dot s3; s ← strip_prefix ": " s4;
  Some (fst (line_span s)).

(** The part of [s] before its last [%], if it has one. *)
Fixpoint before_last_percent (s : string) : option string :=
  match s with
  | EmptyString => None
  | String c s' =>
      match before_last_percent s' with
      | Some g => Some (String c g)
      | None => if Ascii.eqb c "%" then Some EmptyString else None
      end
  end.

(** [re.match] of [Percent of CPU this job got: ], the group and [%]: the
    group, being greedy, ends at the last [%] of the line. *)
Definition match_perc_cpu (l : string) : option string :=
  s ← strip_prefix "Percent of CPU this job got: " l;
  before_last_percent (fst (line_span s)).

Fixpoint skip_blanks (s : string) : string :=
  match s with
  | String " " s' => skip_blanks s'
  | _ => s
  end.

(** [re.match] of [Exit status:], blanks, the group, blanks and [$]: the
    first run of blanks and then the group take all they can. *)
Definition match_exit_status (l : string) : option string :=
  s ← strip_prefix "Exit status:" l;
  let '(g, rest) := line_span (skip_blanks s) in
  if at_dollar rest then Some g else None.

(** *** Running one case *)

(** A result from a solver.  [result] is optional because the programs
    test it against Python's [None]; [execute_case] always stores a
    string. *)
Record Result : Type := mkResult {
  result : option string;
  mem_used_MB : option Q;
  exit_status : option Z;
  perc_CPU : option Z;
  t : option Q;
  tout : option Q;
  case : Case;
  out : string;
}.

(** What the child processes of one invocation produce: the output of the
    tool, the status report of runlim and the report of time. *)
Record Run : Type := mkRun {
  run_stdout : string;
  run_stderr : string;
  runlim_report : string;
  time_report : string;
}.

(** [subprocess.run(toexec, capture_output=True, ...)]: runlim and time
    write their reports into the files named on the command line, and the
    captured output of the tool is returned.  [world] gives, for a command
    line, what its processes produce. *)
Definition subprocess_run (world : list string → Run) (toexec : list string)
    (fname_time fname_runlim : string) : M (string * string) := fun fs =>
  let run := world toexec in
  (<[fname_time := time_report run]> (<[fname_runlim := runlim_report run]> fs),
   Ret (run_stdout run, run_stderr run)).

(** The loop over the lines of the runlim report. *)
Definition scan_runlim (text : string) : bool :=
  fold_left (fun out_of_time l => if match_out_of_time l then true else out_of_time)
            (Py.file_lines text) false.

(** The loop over the lines of the tool's standard output. *)
Definition scan_stdout (stdout : string) : option string :=
  fold_left (fun result l =>
               match match_result (Py.strip l) with
               | Some g => Some g
               | None => result
               end)
            (Py.split_nl stdout) None.

(** [if out_of_time or result is None: result = "unknown"] *)
Definition default_unknown (out_of_time : bool) (result : option string)
    : string :=
  match result with
  | Some r => if out_of_time then "unknown" else r
  | None => "unknown"
  end.

(** [int(match.group(1))] *)
Definition to_int (g : string) : res Z :=
  match Py.int g with
  | Some n => Ret n
  | None => Raise (ValueError ("invalid literal for int() with base 10: " +:+ g))
  end.

(** The body of the loop over the lines of the report of time; the three
    variables are [mem_used_MB], [perc_CPU] and [exit_status]. *)
Definition parse_time_line (vars : option Q * option Z * option Z) (l : string)
    : res (option Q * option Z * option Z) :=
  let l := Py.strip l in
  let '(mem_used_MB, perc_CPU, exit_status) := vars in
  mem_used_MB ← match match_max_rss l with
                | Some g => n ← to_int g; mret (Some (inject_Z n / 1000)%Q)
                | None => mret mem_used_MB
                end;
  perc_CPU ← match match_perc_cpu l with
             | Some g => n ← to_int g; mret (Some n)
             | None => mret perc_CPU
             end;
  exit_status ← match match_exit_status l with
                | Some g => n ← to_int g; mret (Some n)
                | None => mret exit_status
                end;
  mret (mem_used_MB, perc_CPU, exit_status).

Fixpoint parse_time_lines (vars : option Q * option Z * option Z)
    (lines : list string) : res (option Q * option Z * option Z) :=
  match lines with
  | [] => Ret vars
  | l :: lines' => vars' ← parse_time_line vars l; parse_time_lines vars' lines'
  end.

(** [assert result == "safe" or result == "unsafe" or result == "unknown"] *)
Definition result_permitted (result : string) : bool :=
  String.eqb result "safe" || String.eqb result "unsafe"
  || String.eqb result "unknown".

(** The command line of one invocation. *)
Definition command_line (opts : Options) (fname_time fname_runlim tool : string)
    (extra_opts : list string) (case : Case) : list string :=
  ["time"; "--verbose"; "-o"; fname_time; "runlim";
   "--real-time-limit=" +:+ pretty (timeout opts);
   "--output-file=" +:+ fname_runlim;
   "--kill-delay=10";
   tool; sol_file case; contract case; fun_ case;
   if ds case then "1" else "0"] ++ extra_opts.

(** [execute_case].  [before] and [after] are the two readings of the
    clock, in nanoseconds.  What is printed on the console is left out. *)
Definition execute_case (opts : Options) (world : list string → Run)
    (before after : Z) (tool : string) (extra_opts : list string)
    (case : Case) : M Result :=
  fname_runlim ← unique_file "output";
  fname_time ← unique_file "output";
  let toexec := command_line opts fname_time fname_runlim tool extra_opts case in
  '(stdout, stderr) ← subprocess_run world toexec fname_time fname_runlim;
  runlim_text ← read_file fname_runlim;
  let out_of_time := scan_runlim runlim_text in
  let result := scan_stdout stdout in
  let time_taken := Qmake (after - before) 1000000000 in
  let result := default_unknown out_of_time result in
  time_text ← read_file fname_time;
  '(mem_used_MB, perc_CPU, exit_status) ←
    lift (parse_time_lines (None, None, None) (Py.file_lines time_text));
  if result_permitted result then
    _ ← unlink fname_runlim;
    _ ← unlink fname_time;
    mret (mkResult (Some result) mem_used_MB exit_status perc_CPU
                   (Some time_taken) (Some (inject_Z (timeout opts))) case stderr)
  else raise AssertionError.

(** *** Persisting the results *)

(** The Python values that are written out. *)
Inductive pyval : Type :=
| VNone
| VBool (b : bool)
| VInt (z : Z)
| VFloat (q : Q)
| VStr (s : string).

Definition opt_val {A : Type} (f : A → pyval) (o : option A) : pyval :=
  match o with
  | Some a => f a
  | None => VNone
  end.

(** A Python dictionary with string keys, in insertion order. *)
Abbreviation dict := (list (string * pyval)).

(** [d[k]] *)
Fixpoint field (k : string) (d : dict) : option pyval :=
  match d with
  | [] => None
  | (k', v) :: d' => if String.eqb k' k then Some v else field k d'
  end.

(** [x == s] for a variable [x] that holds a string or [None]. *)
Definition str_eq (x : option string) (s : string) : bool :=
  match x with
  | Some s' => String.eqb s' s
  | None => false
  end.

(** [ResultEncoder.default] on a [Result]. *)
Definition ResultEncoder_default (opts : Options) (obj : Result) : dict :=
  let solved := str_eq (result obj) "safe" || str_eq (result obj) "unsafe" in
  let correct :=
    if solved then VBool (str_eq (result obj) (expected (case obj))) else VNone in
  [("name", VStr (get_name (case obj)));
   ("solc_version", VStr (solc_version opts));
   ("ds", VBool (ds (case obj)));
   ("solved", VBool solved);
   ("correct", correct);
   ("t", opt_val VFloat (t obj));
   ("tout", opt_val VFloat (tout obj));
   ("memMB", opt_val VFloat (mem_used_MB obj));
   ("exit_status", opt_val VInt (exit_status obj));
   ("out", VStr (out obj))].

Section Dump.

(** The text of a number, as the string formatting operator gives it. *)
Variable py_str : pyval → string.

Definition empty_if_none (x : pyval) : string :=
  match x with
  | VNone => ""
  | _ => py_str x
  end.

(** The row written by [dump_results] for result [r] of [solver]. *)
Definition csv_row (opts : Options) (solver : string) (r : Result) : dict :=
  let corr_as_sqlite :=
    match result r with
    | Some res => VInt (Z.b2z (String.eqb res (expected (case r))))
    | None => VStr ""
    end in
  [("solver", VStr solver);
   ("solc_version", VStr (solc_version opts));
   ("name", VStr (get_name (case r)));
   ("result", opt_val VStr (result r));
   ("correct", corr_as_sqlite);
   ("t", VStr (empty_if_none (opt_val VFloat (t r))));
   ("timeout", opt_val VFloat (tout r));
   ("memMB", VStr (empty_if_none (opt_val VFloat (mem_used_MB r))));
   ("exit_status", VStr (empty_if_none (opt_val VInt (exit_status r))));
   ("output", VStr (out r))].

(** [dump_results]: the JSON document, one array of records per run
    identifier, and the rows of the CSV file under its header. *)
Definition dump_results (opts : Options)
    (solvers_results : list (string * list Result))
    : list (string * list dict) * list dict :=
  (map (fun '(solver, results) =>
          (solver, map (ResultEncoder_default opts) results))
       solvers_results,
   concat (map (fun '(solver, results) => map (csv_row opts solver) results)
               solvers_results)).

End Dump.

(** The header of the CSV file: the [fieldnames] of [dump_results]. *)
Definition csv_fieldnames : list string :=
  ["solver"; "solc_version"; "name"; "result"; "correct"; "t"; "timeout";
   "memMB"; "exit_status"; "output"].

(** *** Other helpers *)

(** [printable_output], on the text that the string formatting operator
    gives for its argument: the two-character sequences backslash-n and
    backslash-t are replaced, in this order, by a newline and by a tab. *)
Definition printable_output (out : string) : string :=
  Py.replace2 "\" "t" (String Py.tab EmptyString)
    (Py.replace2 "\" "n" (String Py.nl EmptyString) out).

(** [last_line_in_file] *)
Definition last_line_in_file (fname : string) : M string :=
  text ← read_file fname;
  match last (Py.splitlines text) with
  | Some last_line => mret last_line
  | None => raise IndexError
  end.

(** *** The matrix of tools and cases *)

Inductive build_step : Type := build_forge | build_crytic.

(** An entry of the dictionary [tools]. *)
Record Tool : Type := mkTool {
  tool_name : string;
  tool_call : string;
  tool_version : string;
  tool_extra_opts : list string;
  tool_build : build_step;
}.

(** The dictionary [tools], in the order of its entries. *)
Definition tools : list Tool :=
  [mkTool "hevm-cvc5" "tools/hevm.sh" "tools/hevm_version.sh" ["--solver"; "cvc5"]
          build_forge;
   mkTool "hevm-z3" "tools/hevm.sh" "tools/hevm_version.sh" ["--solver"; "z3"]
          build_forge;
   mkTool "halmos" "tools/halmos.sh" "tools/halmos_version.sh" [] build_crytic].

(** [d[k] = v] on a dictionary kept in insertion order: the value of an
    existing key is replaced in place, a new key is added at the end. *)
Fixpoint dict_set {V : Type} (k : string) (v : V) (d : list (string * V))
    : list (string * V) :=
  match d with
  | [] => [(k, v)]
  | (k', v') :: d' =>
      if String.eqb k' k then (k, v) :: d' else (k', v') :: dict_set k v d'
  end.

Section Matrix.

(** What is outside the program: the build of a pipeline and the query of
    a version, which read and change the files and may end the program;
    the processes of an execution; the two readings of the clock around the
    execution, by a tool, of the case at a position of the list; and the
    timestamp taken by [main]. *)
Variable build : build_step → M unit.
Variable get_version : string → M string.
Variable world : list string → Run.
Variable clock : string → nat → Z * Z.
Variable timestamp : string.

(** The loop [for c in cases: res.append(execute_case(...))], from the
    position [i] of the list; [readings] gives the readings of the clock at
    a position. *)
Fixpoint run_cases (opts : Options) (readings : nat → Z * Z) (call : string)
    (extra_opts : list string) (i : nat) (cases : list Case) : M (list Result) :=
  match cases with
  | [] => mret []
  | c :: cases' =>
      r ← execute_case opts world (fst (readings i)) (snd (readings i))
            call extra_opts c;
      res ← run_cases opts readings call extra_opts (S i) cases';
      mret (r :: res)
  end.

(** The loop of [run_all_tests] over the entries of [tools]. *)
Fixpoint run_tools (opts : Options) (cases : list Case) (descrs : list Tool)
    (results : list (string * list Result)) : M (list (string * list Result)) :=
  match descrs with
  | [] => mret results
  | descr :: descrs' =>
      _ ← build (tool_build descr);
      version ← get_version (tool_version descr);
      res ← run_cases opts (clock (tool_name descr)) (tool_call descr)
              (tool_extra_opts descr) 0 cases;
      let name := tool_name descr +:+ "-" +:+ version +:+ "-tstamp-" +:+ timestamp in
      run_tools opts cases descrs' (dict_set name res results)
  end.

Definition run_all_tests (opts : Options) (cases : list Case)
    : M (list (string * list Result)) :=
  run_tools opts cases tools [].

End Matrix.

End Bench.

(** ** gen_graphs.py *)

Module GenGraphs.

(** Modelled from the spec: the table [results] of the database, which is
    created by a script that is not among the sources.  Its columns are
    those of the flattened CSV file that is imported into it; a row has the
    columns that the queries of this program read, which they name
    [solver], [name], [result], [t] and [tout]. *)
Record row : Type := mkRow {
  r_solver : string;
  r_name : string;
  r_result : string;
  r_t : Q;
  r_tout : Q;
}.

(** The count of the inner loop of [convert_to_cdf] for bucket edge [a]. *)
Definition count_below (time : list Q) (a : Z) : Z :=
  fold_left (fun num t => if Py.lt t (inject_Z a) then num + 1 else num)%Z time 0%Z.

(** The body of the outer loop: the state is [lastnum] and the rows
    written so far, each row being [(num, a)]. *)
Definition cdf_step (time : list Q) (st : Z * list (Z * Z)) (a : Z)
    : Z * list (Z * Z) :=
  let '(lastnum, written) := st in
  let num := count_below time a in
  (num, if negb (lastnum =? num)%Z then (written ++ [(num, a)])%list else written).

(** [range(0, n, 1)] *)
Definition range (n : nat) : list Z := map Z.of_nat (seq 0 n).

Definition cdf_loop (time : list Q) (buckets : list Z) : Z * list (Z * Z) :=
  fold_left (cdf_step time) buckets ((-1)%Z, []).

(** The rows that [convert_to_cdf] writes for the parsed times [time]. *)
Definition cdf_rows (time : list Q) : list (Z * Z) :=
  snd (cdf_loop time (range 3600)).

(** *** Effects *)

(** What the program does to the outside, in order: the messages it
    prints, the data tables it writes for gnuplot, and the runs of
    gnuplot.  The text of the gnuplot scripts is left out. *)
Inductive event : Type :=
| Mkdir (path : string)
| Print (msg : string)
| PrintSolvers (solvers : list string)
| PrintTimeout (t : Q)
| CdfTable (fname : string) (rows : list (Z * Z))
| CompareTable (fname : string) (rows : list (Q * Q * string))
| BoxTable (fname : string) (rows : list (nat * string * list Q))
| Gnuplot (script : string).

Definition W (A : Type) : Type := list event * res A.

#[global] Instance W_ret : MRet W := fun A a => ([], Ret a).
#[global] Instance W_bind : MBind W := fun A B f m =>
  match m with
  | (tr, Ret a) => let '(tr', r) := f a in ((tr ++ tr')%list, r)
  | (tr, Raise e) => (tr, Raise e)
  end.

Definition emit (e : event) : W unit := ([e], Ret tt).
Definition raise {A : Type} (e : exn) : W A := ([], Raise e).
Definition lift {A : Type} (r : res A) : W A := ([], r).

(** [for x in l: body x] *)
Fixpoint for_each {A : Type} (l : list A) (body : A → W unit) : W unit :=
  match l with
  | [] => mret tt
  | x :: l' => _ ← body x; for_each l' body
  end.

(** *** Queries *)

(** The values of a column, one per group of a [group by] on it. *)
Fixpoint distinct {A : Type} (eqb : A → A → bool) (l : list A) : list A :=
  match l with
  | [] => []
  | x :: l' => x :: filter (fun y => negb (eqb x y)) (distinct eqb l')
  end.

(** [(case when result=='unknown' then tout else t end)] *)
Definition time_or_tout (r : row) : Q :=
  if String.eqb (r_result r) "unknown" then r_tout r else r_t r.

(** [get_solvers] *)
Definition get_solvers (db : list row) : list string :=
  distinct String.eqb (map r_solver db).

(** *** Validation *)

Definition check_all_same_tout (db : list row) : W unit :=
  let touts := distinct Qeq_bool (map r_tout db) in
  if (1 <? length touts)%nat then
    _ ← emit (Print "ERROR. Some systems were ran with differing timeouts: ");
    _ ← for_each touts (fun t => emit (PrintTimeout t));
    _ ← emit (Print
      "You must delete the results.db database and run all with the same timeouts");
    raise (SystemExit (-1))
  else if (length touts =? 0)%nat then
    _ ← emit (Print "ERROR: no data in database!");
    raise (SystemExit (-1))
  else mret tt.

(** *** Pairwise comparison *)

(** The rows of the join of the table with itself for two solvers. *)
Definition compare_rows (db : list row) (solver solver2 : string)
    : list (Q * Q * string) :=
  flat_map (fun a =>
    flat_map (fun b =>
      if String.eqb (r_solver a) solver && String.eqb (r_solver b) solver2
         && String.eqb (r_name a) (r_name b)
      then [(time_or_tout a, time_or_tout b, r_name a)] else [])
    db) db.

Definition gen_comparative_graphs (db : list row) : W unit :=
  let solvers := get_solvers db in
  for_each solvers (fun solver =>
    for_each solvers (fun solver2 =>
      if String.leb solver2 solver then mret tt
      else
        let fname_gnuplot_data :=
          "graphs/compare-" +:+ solver +:+ "-" +:+ solver2 +:+ ".gnuplotdata" in
        _ ← emit (CompareTable fname_gnuplot_data (compare_rows db solver solver2));
        _ ← for_each ["eps"; "png"] (fun t =>
              emit (Print ("generating graph: " +:+ solver +:+ "-vs-" +:+ solver2
                             +:+ "." +:+ t)));
        emit (Gnuplot "compare.gnuplot"))).

(** *** Per-instance table *)

(** The body of the loop over the rows selected for [instance]; the state
    is the dictionary [solve_time] and the variable [tout]. *)
Definition box_row_step (instance : string) (st : gmap string Q * option Q)
    (l : row) : res (gmap string Q * option Q) :=
  let '(solve_time, _) := st in
  if String.eqb instance (r_name l) then
    let solver := r_solver l in
    let t := time_or_tout l in
    let tout := r_tout l in
    let t := Py.min t tout in
    Ret (<[solver := t]> solve_time, Some tout)
  else Raise AssertionError.

Fixpoint box_row_loop (instance : string) (st : gmap string Q * option Q)
    (ret : list row) : res (gmap string Q * option Q) :=
  match ret with
  | [] => Ret st
  | l :: ret' => st' ← box_row_step instance st l; box_row_loop instance st' ret'
  end.

(** The loop over [all_solvers] that writes the columns of one line. *)
Fixpoint box_columns (instance : string) (solve_time : gmap string Q)
    (tout : option Q) (solvers : list string) : W (list Q) :=
  match solvers with
  | [] => mret []
  | solver :: solvers' =>
      match tout with
      | None => raise AssertionError
      | Some _ =>
          match solve_time !! solver with
          | None =>
              _ ← emit (Print ("ERROR, solver '" +:+ solver
                                 +:+ "' was not run on instance '" +:+ instance +:+ "'"));
              raise (SystemExit (-1))
          | Some t =>
              ts ← box_columns instance solve_time tout solvers';
              mret (t :: ts)
          end
      end
  end.

(** The loop over the instances, from index [i]; [solve_time] and [tout]
    are created before the loop and live through it.  A line is the
    index, the label of the instance and the columns. *)
Fixpoint box_lines (db : list row) (all_solvers : list string) (i : nat)
    (instances : list string) (st : gmap string Q * option Q)
    : W (list (nat * string * list Q)) :=
  match instances with
  | [] => mret []
  | instance :: instances' =>
      st' ← lift (box_row_loop instance st
                    (filter (fun l => String.eqb (r_name l) instance) db));
      let instance_clean :=
        Py.replace_char "_" "\\\_" (Py.basename instance) in
      ts ← box_columns instance (fst st') (snd st') all_solvers;
      lines ← box_lines db all_solvers (S i) instances' st';
      mret ((S i, instance_clean, ts) :: lines)
  end.

(** [select name from results group by name] and
    [select solver from results group by solver] *)
Definition all_instances (db : list row) : list string :=
  distinct String.eqb (map r_name db).

Definition all_solvers (db : list row) : list string :=
  distinct String.eqb (map r_solver db).

Definition gen_boxgraphs (db : list row) : W unit :=
  lines ← box_lines db (all_solvers db) 0 (all_instances db) (∅, None);
  _ ← emit (BoxTable "boxdata.dat" lines);
  _ ← for_each ["eps"; "png"] (fun t => emit (Print ("Generating boxchart." +:+ t)));
  emit (Gnuplot "boxplot.gnuplot").

(** *** Cumulative curves and the main program *)

Section Text.

(** The text that the sqlite3 shell prints for a number in CSV mode, and
    the value that [float] reads from a text ([None] for [ValueError]). *)
Variable sql_text : Q → string.
Variable py_float : string → option Q.

(** [float(line.split()[0])] *)
Definition parse_time (line : string) : res Q :=
  match Py.first_field line with
  | None => Raise IndexError
  | Some f =>
      match py_float f with
      | Some q => Ret q
      | None => Raise (ValueError ("could not convert string to float: " +:+ f))
      end
  end.

(** [convert_to_cdf], given the lines of the file [fname]; returns the
    number of lines. *)
Definition convert_to_cdf (mylines : list string) (fname2 : string) : W Z :=
  time ← lift (mapM_res parse_time mylines);
  _ ← emit (CdfTable fname2 (cdf_rows time));
  mret (Z.of_nat (length mylines)).

(** The lines that the sqlite3 shell writes for
    [select t from results where solver=... and result!='unknown']. *)
Definition solved_times (db : list row) (solver : string) : list Q :=
  map r_t (filter (fun r => String.eqb (r_solver r) solver
                            && negb (String.eqb (r_result r) "unknown")) db).

Fixpoint gen_cdf_files_loop (db : list row) (solvers : list string)
    : W (list (string * string * Z)) :=
  match solvers with
  | [] => mret []
  | solver :: solvers' =>
      let fname_csv := "graphs/run-" +:+ solver +:+ ".csv" in
      let fname_cdf := fname_csv +:+ ".gnuplotdata" in
      num_solved ← convert_to_cdf (map sql_text (solved_times db solver)) fname_cdf;
      ret ← gen_cdf_files_loop db solvers';
      mret ((fname_cdf, solver, num_solved) :: ret)
  end.

Definition gen_cdf_files (db : list row) : W (list (string * string * Z)) :=
  let solvers := get_solvers db in
  _ ← emit (PrintSolvers solvers);
  gen_cdf_files_loop db solvers.

Definition gen_cdf_graph (db : list row) : W unit :=
  cdf_files ← gen_cdf_files db;
  _ ← emit (Gnuplot "cdf.gnuplot");
  _ ← emit (Print "graph generated: cdf.eps");
  emit (Print "graph generated: cdf.png").

Definition main (db : list row) : W unit :=
  _ ← emit (Mkdir "graphs");
  _ ← check_all_same_tout db;
  _ ← gen_cdf_graph db;
  _ ← gen_comparative_graphs db;
  gen_boxgraphs db.

End Text.

End GenGraphs.

(** ** Vocabulary of the specification *)

Module Spec.

(** A path is under a root when the root is a prefix of it. *)
Definition under_root (root path : string) : Prop :=
  ∃ rest, path = root +:+ rest.

(** A path is inside the directory [dir] when it continues [dir] with a
    slash. *)
Definition inside_dir (dir path : string) : Prop :=
  under_root (dir +:+ "/") path.

(** The text has a newline. *)
Fixpoint has_nl (s : string) : bool :=
  match s with
  | EmptyString => false
  | String c s' => Ascii.eqb c Py.nl || has_nl s'
  end.


(** A line of the standard output is tagged with token [tok]. *)
Definition tagged (l tok : string) : Prop :=
  Bench.match_result (Py.strip l) = Some tok.

Definition untagged (l : string) : Prop :=
  Bench.match_result (Py.strip l) = None.


(** An execution of [case] that starts with the files [fs] gets the
    scratch files [fname_runlim] and [fname_time], and its processes
    produce [run]. *)
Definition started (opts : Bench.Options) (world : list string → Bench.Run)
    (tool : string) (extra_opts : list string) (case : Bench.Case)
    (fs : gmap string string) (fname_runlim fname_time : string)
    (run : Bench.Run) : Prop :=
  ∃ fs1 fs2,
    Bench.unique_file "output" fs = (fs1, Ret fname_runlim)
    ∧ Bench.unique_file "output" fs1 = (fs2, Ret fname_time)
    ∧ run = world (Bench.command_line opts fname_time fname_runlim tool
                     extra_opts case).

(** The report of time can be read: every number in it is an integer
    literal. *)
Definition telemetry_readable (report : string) : Prop :=
  ∃ vars, Bench.parse_time_lines (None, None, None) (Py.file_lines report)
          = Ret vars.

(** No line of the report of time carries a telemetry field. *)
Definition no_telemetry (report : string) : Prop :=
  Forall (fun l => Bench.match_max_rss (Py.strip l) = None
                   ∧ Bench.match_perc_cpu (Py.strip l) = None
                   ∧ Bench.match_exit_status (Py.strip l) = None)
         (Py.file_lines report).


(** An elapsed time is strictly less than a bound in seconds. *)
Definition below (t : Q) (bound : Z) : bool :=
  if Qlt_le_dec t (inject_Z bound) then true else false.

(** The number of elapsed times strictly less than the bound. *)
Definition solved_below (time : list Q) (bound : Z) : Z :=
  Z.of_nat (length (List.filter (fun t => below t bound) time)).

(** From one row of a curve to a later one, the count and the time both
    increase strictly; a row is [(count, time)]. *)
Definition rows_increase (r1 r2 : Z * Z) : Prop :=
  (fst r1 < fst r2)%Z ∧ (snd r1 < snd r2)%Z.

(** The results were run under two different timeout bounds. *)
Definition mixed_timeouts (db : list GenGraphs.row) : Prop :=
  ∃ r1 r2, r1 ∈ db ∧ r2 ∈ db ∧ ¬ (GenGraphs.r_tout r1 == GenGraphs.r_tout r2)%Q.

(** An event of the aggregation proper: a table is written for gnuplot, or
    gnuplot is run. *)
Definition aggregate_output (e : GenGraphs.event) : Prop :=
  match e with
  | GenGraphs.CdfTable _ _ | GenGraphs.CompareTable _ _
  | GenGraphs.BoxTable _ _ | GenGraphs.Gnuplot _ => True
  | _ => False
  end.

(** A message printed on the console. *)
Definition diagnostic (e : GenGraphs.event) : Prop :=
  match e with
  | GenGraphs.Print _ | GenGraphs.PrintTimeout _ => True
  | _ => False
  end.

(** [r] is the result of [solver] on [instance]: the last row of the table
    for the two. *)
Definition result_of (db : list GenGraphs.row) (instance solver : string)
    (r : GenGraphs.row) : Prop :=
  ∃ pre post,
    db = (pre ++ r :: post)%list
    ∧ GenGraphs.r_name r = instance ∧ GenGraphs.r_solver r = solver
    ∧ Forall (fun r' => ¬ (GenGraphs.r_name r' = instance
                           ∧ GenGraphs.r_solver r' = solver)) post.

(** [v] is the value in the column of [solver] on the line of [instance] in
    the per-instance table. *)
Definition contributes (db : list GenGraphs.row) (instance solver : string)
    (v : Q) : Prop :=
  ∃ tr lines i j label ts,
    GenGraphs.box_lines db (GenGraphs.all_solvers db) 0
      (GenGraphs.all_instances db) (∅, None) = (tr, Ret lines)
    ∧ GenGraphs.all_instances db !! i = Some instance
    ∧ GenGraphs.all_solvers db !! j = Some solver
    ∧ lines !! i = Some (S i, label, ts)
    ∧ ts !! j = Some v.



(** The text is made of whitespace. *)
Fixpoint all_space (s : string) : bool :=
  match s with
  | EmptyString => true
  | String c s' => Py.is_space c && all_space s'
  end.

(** The last character of a text. *)
Fixpoint last_char (s : string) : option ascii :=
  match s with
  | EmptyString => None
  | String c s' =>
      match last_char s' with
      | Some c' => Some c'
      | None => Some c
      end
  end.

(** The text starts with the character [b]. *)
Definition starts_with_char (b : ascii) (s : string) : bool :=
  match s with
  | String d _ => Ascii.eqb d b
  | EmptyString => false
  end.

(** The character [a] is somewhere in the text followed by [b]. *)
Fixpoint has2 (a b : ascii) (s : string) : bool :=
  match s with
  | EmptyString => false
  | String c t => Ascii.eqb c a && starts_with_char b t || has2 a b t
  end.

(** The text has a character that ends a line. *)
Fixpoint has_linebreak (s : string) : bool :=
  match s with
  | EmptyString => false
  | String c s' => Py.is_linebreak c || has_linebreak s'
  end.

End Spec.

(** ** Concrete runs *)

Module Examples.

Import Bench.

Definition line (s : string) : string := s +:+ String Py.nl EmptyString.

Definition opts25 : Options := mkOptions false 1 "0.8.19" 25 100000.

Definition foo : Case :=
  mkCase "Foo" "out/Foo.sol/Foo.json" "src/unsafe/1tx-abstract/Foo.sol" false ""
         "unsafe".

Definition bar : Case :=
  mkCase "Bar" "out/Bar.sol/Bar.json" "src/safe/1tx-abstract/Bar.sol" false ""
         "safe".

(** One stale scratch file is present, so the names numbered 2 and 3 are
    the ones taken. *)
Definition fs_stale : gmap string string := {[ "out/output_1.out" := "" ]}.

Definition time_ok : string :=
  line "	Maximum resident set size (kbytes): 12000"
  +:+ line "	Percent of CPU this job got: 99%"
  +:+ line "	Exit status: 0".

(** The tool prints a verdict but runlim reports that it ran out of time. *)
Definition run_timed_out : Run :=
  mkRun (line "checking" +:+ line "result: safe") ""
        (line "[runlim] status:		out of time") time_ok.

(** The tool prints two verdicts and ends in time. *)
Definition run_two_verdicts : Run :=
  mkRun (line "result: safe" +:+ line "  result: unsafe " +:+ line "bye") ""
        (line "[runlim] status:		ok") time_ok.



(** The tool prints no verdict, and the report of time has a number that
    is not an integer literal. *)
Definition run_bad_telemetry : Run :=
  mkRun (line "starting") "" (line "[runlim] status:		ok")
        (line "	Exit status: n/a").

(** The processes produce [run] whatever the command line. *)
Definition world_of (run : Run) : list string → Run := fun _ => run.

(** The result of a run of 25.3 seconds that timed out on a case expected
    to be safe: its outcome is [unknown]. *)
Definition unknown_result : Result :=
  mkResult (Some "unknown") (Some (12000 # 1000)%Q) (Some 0%Z) (Some 99%Z)
           (Some (25300000000 # 1000000000)%Q) (Some 25%Q) bar "".

(** The elapsed times of three solved cases. *)
Definition times_three : list Q := [3.2; 0; 1.5]%Q.

(** One case solved half a second before the hour. *)
Definition times_late : list Q := [3599.5]%Q.

(** Solver A solved the case in 3.2 seconds; solver B ended after one
    second without a verdict. Both ran under a timeout of 25 seconds. *)
Definition row_A : GenGraphs.row :=
  GenGraphs.mkRow "A" "src/unsafe/1tx-abstract/Foo.sol:Foo" "unsafe" 3.2 25.

Definition row_B : GenGraphs.row :=
  GenGraphs.mkRow "B" "src/unsafe/1tx-abstract/Foo.sol:Foo" "unknown" 1 25.

Definition db_two : list GenGraphs.row := [row_A; row_B].

(** The same results, with one more under a timeout of 60 seconds. *)
Definition db_mixed : list GenGraphs.row :=
  [row_A; row_B;
   GenGraphs.mkRow "C" "src/unsafe/1tx-abstract/Foo.sol:Foo" "unsafe" 30 60].

(** The result of the run with two verdicts on the case [foo], which took
    a second and a half. *)
Definition unsafe_result : Result :=
  mkResult (Some "unsafe") (Some (12000 # 1000)%Q) (Some 0%Z) (Some 99%Z)
           (Some (1500000000 # 1000000000)%Q) (Some 25%Q) foo "".

(** A printer of the two times of [db_two] and a reader of its texts. *)
Definition sql_text_two (q : Q) : string :=
  if Qeq_bool q 3.2 then "3.2" else "1.0".

Definition py_float_two (s : string) : option Q :=
  if String.eqb s "3.2" then Some 3.2%Q
  else if String.eqb s "1.0" then Some 1%Q
  else None.


End Examples.

(** * Properties of bench.py *)

Section Strings.

Lemma append_cons (c : ascii) (s s' : string) :
  String c s +:+ s' = String c (s +:+ s').
Proof. reflexivity. Qed.

Lemma append_nil_l (s : string) : "" +:+ s = s.
Proof. reflexivity. Qed.

Lemma append_assoc (s1 s2 s3 : string) :
  (s1 +:+ s2) +:+ s3 = s1 +:+ (s2 +:+ s3).
Proof.
  induction s1 as [|c s1 IH]; [reflexivity |].
  rewrite !append_cons. by rewrite IH.
Qed.

Lemma prefix_under_root (p s : string) :
  String.prefix p s = true ↔ Spec.under_root p s.
Proof.
  unfold Spec.under_root. revert s.
  induction p as [|c p IH]; intros s.
  - split; [intros _; exists s; reflexivity | intros _; destruct s; reflexivity].
  - destruct s as [|c' s]; simpl.
    + split; [discriminate | intros [rest H]; discriminate].
    + destruct (Ascii.ascii_dec c c') as [->|Hne].
      * rewrite IH. split; intros [rest H]; exists rest.
        -- simpl. by rewrite H.
        -- simpl in H. by injection H.
      * split; [discriminate |].
        intros [rest H]. simpl in H. injection H as H1 _. congruence.
Qed.

Lemma startswith_under_root (s p : string) :
  Py.startswith s p = true ↔ Spec.under_root p s.
Proof. apply prefix_under_root. Qed.

Lemma under_root_trans (p q s : string) :
  Spec.under_root p q → Spec.under_root q s → Spec.under_root p s.
Proof.
  intros [r1 ->] [r2 ->]. exists (r1 +:+ r2). apply append_assoc.
Qed.

(** No path is under both roots. *)
Lemma roots_disjoint (s : string) :
  Spec.under_root "src/safe" s → Spec.under_root "src/unsafe" s → False.
Proof. intros [r1 ->] [r2 H]. discriminate H. Qed.

End Strings.

(** The functions that stand for the regular expressions, against the
    texts that the expressions describe. *)
Section Patterns.

Import Bench.

Lemma strip_prefix_spec (p s r : string) :
  strip_prefix p s = Some r ↔ s = p +:+ r.
Proof.
  revert s. induction p as [|c p IH]; intros s; simpl.
  - split; [by intros [= ->] | by intros ->].
  - destruct s as [|c' s]; [split; discriminate |].
    rewrite append_cons.
    destruct (Ascii.eqb_spec c c') as [->|Hne].
    + rewrite IH. split; [by intros -> | by intros [= ->]].
    + split; [discriminate | intros [= ? _]; congruence].
Qed.

Lemma dot_spec (s r : string) :
  dot s = Some r ↔ ∃ c, s = String c r ∧ c ≠ Py.nl.
Proof.
  unfold dot. destruct s as [|c s].
  - split; [discriminate | intros (c & H & _); discriminate].
  - destruct (Ascii.eqb_spec c Py.nl) as [->|Hne].
    + split; [discriminate | intros (c & [= <- _] & H); done].
    + split; [intros [= ->]; eauto | by intros (c' & [= <- ->] & _)].
Qed.

Lemma dotstar_then_eq (p s : string) :
  dotstar_then p s
  = if String.prefix p s then true
    else match s with
         | String c s' => if Ascii.eqb c Py.nl then false else dotstar_then p s'
         | EmptyString => false
         end.
Proof. destruct s; reflexivity. Qed.

Lemma dotstar_then_spec (p s : string) :
  dotstar_then p s = true
  ↔ ∃ mid rest, s = mid +:+ p +:+ rest ∧ Spec.has_nl mid = false.
Proof.
  split.
  - induction s as [|c s IH]; rewrite dotstar_then_eq.
    + destruct (String.prefix p "") eqn:Hp; [| discriminate].
      intros _. apply prefix_under_root in Hp as [rest ->]. by exists "", rest.
    + destruct (String.prefix p (String c s)) eqn:Hp.
      * intros _. apply prefix_under_root in Hp as [rest ->]. by exists "", rest.
      * destruct (Ascii.eqb_spec c Py.nl) as [|Hne]; [discriminate |].
        intros (mid & rest & -> & Hmid)%IH.
        exists (String c mid), rest. split; [reflexivity |]. simpl.
        by destruct (Ascii.eqb_spec c Py.nl).
  - intros (mid & rest & -> & Hmid).
    induction mid as [|c mid IH]; rewrite dotstar_then_eq.
    + assert (Hp : String.prefix p (p +:+ rest) = true)
        by (apply prefix_under_root; by exists rest).
      change ("" +:+ p +:+ rest) with (p +:+ rest). by rewrite Hp.
    + rewrite append_cons. simpl in Hmid.
      apply orb_false_iff in Hmid as [Hc Hmid]. rewrite Hc, (IH Hmid).
      by destruct (String.prefix p _).
Qed.

(** The out-of-time pattern: a character, [runlim], a character,
    [ status:], some text, [out of time], with no newline before
    [out of time]. *)
Lemma match_out_of_time_spec (l : string) :
  match_out_of_time l = true
  ↔ ∃ c1 c2 mid rest,
      l = String c1 ("runlim" +:+ String c2 (" status:" +:+ mid +:+ "out of time" +:+ rest))
      ∧ c1 ≠ Py.nl ∧ c2 ≠ Py.nl ∧ Spec.has_nl mid = false.
Proof.
  unfold match_out_of_time. cbv zeta. split.
  - destruct (dot l ≫= _) as [s4|] eqn:H; [| discriminate].
    apply bind_Some in H as (s1 & H1 & H). apply bind_Some in H as (s2 & H2 & H).
    apply bind_Some in H as (s3 & H3 & H4).
    intros (mid & rest & -> & Hmid)%dotstar_then_spec.
    apply dot_spec in H1 as (c1 & -> & Hc1). apply strip_prefix_spec in H2 as ->.
    apply dot_spec in H3 as (c2 & -> & Hc2). apply strip_prefix_spec in H4 as ->.
    by exists c1, c2, mid, rest.
  - intros (c1 & c2 & mid & rest & -> & Hc1 & Hc2 & Hmid).
    match goal with
    | |- match ?m with _ => _ end = true =>
        assert (Hrest : m = Some (mid +:+ "out of time" +:+ rest))
    end.
    { apply bind_Some. eexists. split; [apply dot_spec; eauto |].
      apply bind_Some. eexists. split; [by apply strip_prefix_spec |].
      apply bind_Some. eexists. split; [apply dot_spec; eauto |].
      by apply strip_prefix_spec. }
    rewrite Hrest. apply dotstar_then_spec. by exists mid, rest.
Qed.

Lemma line_span_spec (s a b : string) :
  line_span s = (a, b)
  ↔ s = a +:+ b ∧ Spec.has_nl a = false ∧ (b = "" ∨ ∃ b', b = String Py.nl b').
Proof.
  revert a. induction s as [|c s IH]; intros a; simpl.
  - split.
    + intros [= <- <-]. auto.
    + intros (H & _ & _).
      destruct a as [|c' a]; [| rewrite append_cons in H; discriminate].
      rewrite append_nil_l in H. by subst.
  - destruct (Ascii.eqb_spec c Py.nl) as [->|Hne].
    + split.
      * intros [= <- <-]. split; [done |]. split; [done |]. right. eauto.
      * intros (H & Ha & _). destruct a as [|c' a].
        -- rewrite append_nil_l in H. by subst.
        -- rewrite append_cons in H. injection H as <- _. simpl in Ha.
           rewrite ?Ascii.eqb_refl in Ha. done.
    + destruct (line_span s) as [a' b'] eqn:Hs. split.
      * intros [= <- <-]. destruct (proj1 (IH a') eq_refl) as (-> & Ha' & Hb').
        split; [done |]. split; [| done]. simpl.
        by destruct (Ascii.eqb_spec c Py.nl).
      * intros (H & Ha & Hb). destruct a as [|c' a].
        -- rewrite append_nil_l in H. subst b.
           destruct Hb as [|[b'' [= ? _]]]; [done | congruence].
        -- rewrite append_cons in H. injection H as <- ->. simpl in Ha.
           apply orb_false_iff in Ha as [_ Ha].
           assert (Hspan : (a', b') = (a, b)) by (apply IH; done).
           by injection Hspan as -> ->.
Qed.

Lemma at_dollar_spec (s : string) :
  at_dollar s = true ↔ s = "" ∨ s = String Py.nl "".
Proof. unfold at_dollar. by rewrite orb_true_iff, !String.eqb_eq. Qed.

(** The tagged pattern: [result: ], the token without a newline, and the
    end of the line. *)
Lemma match_result_spec (l g : string) :
  match_result l = Some g
  ↔ ∃ tail, l = "result: " +:+ g +:+ tail ∧ Spec.has_nl g = false
            ∧ (tail = "" ∨ tail = String Py.nl "").
Proof.
  unfold match_result. rewrite bind_Some. split.
  - intros (s & Hs & H).
    destruct (line_span s) as [a b] eqn:Hspan.
    destruct (at_dollar b) eqn:Hb; [| discriminate]. injection H as <-.
    apply strip_prefix_spec in Hs as ->.
    apply line_span_spec in Hspan as (-> & Ha & _).
    apply at_dollar_spec in Hb. by exists b.
  - intros (tail & -> & Hg & Htail).
    exists (g +:+ tail). split; [by apply strip_prefix_spec |].
    assert (Hspan : line_span (g +:+ tail) = (g, tail)).
    { apply line_span_spec. split; [done |]. split; [done |].
      destruct Htail as [->| ->]; eauto. }
    rewrite Hspan. by rewrite (proj2 (at_dollar_spec tail) Htail).
Qed.

End Patterns.

Section Catalog.

Import Bench.

Lemma determine_expected_safe (sol_file : string) :
  determine_expected sol_file = Ret "safe" ↔ Spec.under_root "src/safe" sol_file.
Proof.
  unfold determine_expected. rewrite <- startswith_under_root.
  destruct (Py.startswith sol_file "src/safe"); [done |].
  destruct (Py.startswith sol_file "src/unsafe"); split; discriminate.
Qed.

Lemma determine_expected_unsafe (sol_file : string) :
  determine_expected sol_file = Ret "unsafe" ↔ Spec.under_root "src/unsafe" sol_file.
Proof.
  unfold determine_expected.
  destruct (Py.startswith sol_file "src/safe") eqn:Hs.
  - apply startswith_under_root in Hs. split; [discriminate |].
    intros Hu. destruct (roots_disjoint _ Hs Hu).
  - rewrite <- startswith_under_root.
    destruct (Py.startswith sol_file "src/unsafe"); split; done.
Qed.

Lemma determine_expected_raises (sol_file : string) :
  (∃ msg, determine_expected sol_file = Raise (ValueError msg))
  ↔ ¬ Spec.under_root "src/safe" sol_file ∧ ¬ Spec.under_root "src/unsafe" sol_file.
Proof.
  unfold determine_expected. rewrite <- !startswith_under_root.
  destruct (Py.startswith sol_file "src/safe").
  - split; [intros [msg H]; discriminate | intros [H _]; by destruct H].
  - destruct (Py.startswith sol_file "src/unsafe").
    + split; [intros [msg H]; discriminate | intros [_ H]; by destruct H].
    + split; [intros _; split; discriminate | intros _; eauto].
Qed.

(** C6. The expected outcome of a case is [safe] exactly when its path is
    under the safe root and [unsafe] exactly when it is under the unsafe
    root; for a path under neither root, and only then, the classification
    raises [ValueError] and no [Case] is constructed. *)
Theorem case_expected_by_root (contract json_fname sol_file fn : string) (ds : bool) :
  let built := Case_init contract json_fname sol_file ds fn in
  ((∃ c, built = Ret c ∧ expected c = "safe")
     ↔ Spec.under_root "src/safe" sol_file)
  ∧ ((∃ c, built = Ret c ∧ expected c = "unsafe")
     ↔ Spec.under_root "src/unsafe" sol_file)
  ∧ ((∃ msg, built = Raise (ValueError msg) ∧ determine_expected sol_file = Raise (ValueError msg))
     ↔ ¬ Spec.under_root "src/safe" sol_file ∧ ¬ Spec.under_root "src/unsafe" sol_file)
  ∧ (∀ c, built = Ret c →
       Bench.sol_file c = sol_file ∧ determine_expected sol_file = Ret (expected c)
       ∧ (expected c = "safe" ∨ expected c = "unsafe")).
Proof.
  intros built. subst built. unfold Case_init.
  pose proof (determine_expected_safe sol_file) as Hs.
  pose proof (determine_expected_unsafe sol_file) as Hu.
  pose proof (determine_expected_raises sol_file) as Hr.
  destruct (determine_expected sol_file) as [e|ex] eqn:He; simpl.
  - assert (Hcases : e = "safe" ∨ e = "unsafe").
    { unfold determine_expected in He.
      destruct (Py.startswith sol_file "src/safe"); [left; congruence |].
      destruct (Py.startswith sol_file "src/unsafe"); [right; congruence | discriminate]. }
    split; [| split; [| split]].
    + rewrite <- Hs. split.
      * intros (c & [= <-] & Hc). simpl in Hc. congruence.
      * intros [= ->]. eauto.
    + rewrite <- Hu. split.
      * intros (c & [= <-] & Hc). simpl in Hc. congruence.
      * intros [= ->]. eauto.
    + rewrite <- Hr. split; [intros (msg & H & _) | intros (msg & H)]; discriminate.
    + intros c [= <-]. simpl. auto.
  - split; [| split; [| split]].
    + rewrite <- Hs. split; [intros (c & H & _) |]; discriminate.
    + rewrite <- Hu. split; [intros (c & H & _) |]; discriminate.
    + rewrite <- Hr. split.
      * intros (msg & H & _). exists msg. congruence.
      * intros (msg & H). exists msg. split; congruence.
    + intros c H. discriminate.
Qed.

Lemma inside_dir_under_root (dir path : string) :
  Spec.inside_dir dir path → Spec.under_root dir path.
Proof.
  unfold Spec.inside_dir. apply under_root_trans. by exists "/".
Qed.

(** A path that [determine_dstest] accepts is inside one of the two
    directories. *)
Lemma determine_dstest_inside (sol_file : string) (b : bool) :
  determine_dstest sol_file = Ret b →
  Spec.inside_dir "src/safe" sol_file ∨ Spec.inside_dir "src/unsafe" sol_file.
Proof.
  unfold determine_dstest, Spec.inside_dir.
  destruct (Py.startswith sol_file "src/safe/ds-test") eqn:H1.
  { intros _. left. apply startswith_under_root in H1.
    eapply under_root_trans; [| exact H1]. by exists "ds-test". }
  destruct (Py.startswith sol_file "src/unsafe/ds-test") eqn:H2.
  { intros _. right. apply startswith_under_root in H2.
    eapply under_root_trans; [| exact H2]. by exists "ds-test". }
  destruct (Py.startswith sol_file "src/safe/1tx-abstract") eqn:H3.
  { intros _. left. apply startswith_under_root in H3.
    eapply under_root_trans; [| exact H3]. by exists "1tx-abstract". }
  destruct (Py.startswith sol_file "src/unsafe/1tx-abstract") eqn:H4.
  { intros _. right. apply startswith_under_root in H4.
    eapply under_root_trans; [| exact H4]. by exists "1tx-abstract". }
  discriminate.
Qed.

Lemma mapM_res_elem {A B : Type} (f : A → res B) (l : list A) (bs : list B) (b : B) :
  mapM_res f l = Ret bs → b ∈ bs → ∃ a, a ∈ l ∧ f a = Ret b.
Proof.
  revert bs. induction l as [|a l IH]; intros bs; simpl.
  - intros [= <-] ?%elem_of_nil. done.
  - destruct (f a) as [b'|e] eqn:Hfa; [| discriminate]. simpl.
    destruct (mapM_res f l) as [bs'|e]; [| discriminate]. simpl.
    intros [= <-] [->|Hin]%elem_of_cons.
    + exists a. split; [apply list_elem_of_here | done].
    + destruct (IH _ eq_refl Hin) as (a' & Ha' & Hfa').
      exists a'. split; [by apply list_elem_of_further | done].
Qed.

(** For the cases of the catalog, being under a root is being inside the
    directory of that name: every case that [gather_cases] constructs is
    expected to be safe exactly when its source is inside [src/safe], and
    unsafe exactly when it is inside [src/unsafe]. *)
Lemma catalog_cases_inside_roots (c json_fname sol_file : string)
    (abi : list (option string)) (cs : list Case) (case : Case) :
  cases_of_artifact c json_fname sol_file abi = Ret cs → case ∈ cs →
  Bench.sol_file case = sol_file
  ∧ (expected case = "safe" ↔ Spec.inside_dir "src/safe" sol_file)
  ∧ (expected case = "unsafe" ↔ Spec.inside_dir "src/unsafe" sol_file).
Proof.
  unfold cases_of_artifact.
  destruct (Py.startswith json_fname "out/build-info");
    [intros [= <-] ?%elem_of_nil; done |].
  destruct (Py.startswith sol_file "src/common/" || Py.startswith sol_file "lib/");
    [intros [= <-] ?%elem_of_nil; done |].
  destruct (determine_dstest sol_file) as [b|e] eqn:Hds; [| discriminate]. simpl.
  apply determine_dstest_inside in Hds.
  assert (Hinit : ∀ d fn, Case_init c json_fname sol_file d fn = Ret case →
            Bench.sol_file case = sol_file
            ∧ (expected case = "safe" ↔ Spec.inside_dir "src/safe" sol_file)
            ∧ (expected case = "unsafe" ↔ Spec.inside_dir "src/unsafe" sol_file)).
  { intros d fn. unfold Case_init.
    destruct (determine_expected sol_file) as [e|ex] eqn:He; [| discriminate].
    simpl. intros [= <-]. simpl. split; [done |].
    pose proof (determine_expected_safe sol_file) as Hs.
    pose proof (determine_expected_unsafe sol_file) as Hu.
    rewrite He in Hs, Hu. split.
    - split.
      + intros ->. destruct Hds as [|Hin]; [done |].
        apply inside_dir_under_root in Hin.
        destruct (roots_disjoint sol_file); [by apply Hs | done].
      + intros Hin%inside_dir_under_root. apply Hs in Hin. congruence.
    - split.
      + intros ->. destruct Hds as [Hin|]; [| done].
        apply inside_dir_under_root in Hin.
        destruct (roots_disjoint sol_file); [done | by apply Hu].
      + intros Hin%inside_dir_under_root. apply Hu in Hin. congruence. }
  destruct b.
  - intros Hm Hin. destruct (mapM_res_elem _ _ _ _ Hm Hin) as (fn & _ & Hfn).
    by eapply Hinit.
  - destruct (Case_init c json_fname sol_file false "") as [cs0|e] eqn:Hc;
      [| discriminate].
    simpl. intros [= <-] ->%list_elem_of_singleton. by eapply Hinit.
Qed.

End Catalog.

Section Execution.

Import Bench.

Lemma unique_file_loop_spec (tries counter : nat) (b e : string)
    (fs fs' : gmap string string) (r : res string) :
  unique_file_loop tries counter b e fs = (fs', r) →
  (∃ f, r = Ret f ∧ fs !! f = None ∧ fs' = <[f := ""]> fs)
  ∨ (r = Raise (SystemExit (-1)) ∧ fs' = fs).
Proof.
  revert counter. induction tries as [|tries IH]; intros counter; simpl.
  - intros [= <- <-]. by right.
  - destruct (fs !! _) eqn:Hl.
    + apply IH.
    + intros [= <- <-]. left. eauto.
Qed.

Lemma unique_file_fresh (b : string) (fs fs' : gmap string string) (f : string) :
  unique_file b fs = (fs', Ret f) → fs !! f = None ∧ fs' = <[f := ""]> fs.
Proof.
  intros H. apply unique_file_loop_spec in H as [(f' & [= <-] & ? & ?) | [[=] _]].
  done.
Qed.

Lemma unique_file_fails (b : string) (fs fs' : gmap string string) (e : exn) :
  unique_file b fs = (fs', Raise e) → e = SystemExit (-1) ∧ fs' = fs.
Proof.
  intros H. apply unique_file_loop_spec in H as [(f' & [=] & ? & ?) | [[= <-] ?]].
  done.
Qed.

Section Run.

Variables (opts : Options) (world : list string → Run) (before after : Z)
          (tool : string) (extra_opts : list string) (case : Case)
          (fs : gmap string string) (fname_runlim fname_time : string)
          (run : Run).
Hypothesis Hstart :
  Spec.started opts world tool extra_opts case fs fname_runlim fname_time run.

(** The files while the reports are parsed. *)
Let fs3 : gmap string string :=
  <[fname_time := time_report run]>
    (<[fname_runlim := runlim_report run]>
       (<[fname_time := ""]> (<[fname_runlim := ""]> fs))).

Let outcome : string :=
  default_unknown (scan_runlim (runlim_report run)) (scan_stdout (run_stdout run)).

Lemma scratch_names_fresh :
  fs !! fname_runlim = None ∧ fs !! fname_time = None ∧ fname_runlim ≠ fname_time.
Proof.
  destruct Hstart as (fs1 & fs2 & H1 & H2 & _).
  apply unique_file_fresh in H1 as [Hr ->].
  apply unique_file_fresh in H2 as [Ht _].
  split; [done |]. split.
  - destruct (decide (fname_runlim = fname_time)) as [->|Hne].
    + by rewrite lookup_insert_eq in Ht.
    + by rewrite lookup_insert_ne in Ht.
  - intros ->. by rewrite lookup_insert_eq in Ht.
Qed.

Lemma scratch_files_removed : delete fname_time (delete fname_runlim fs3) = fs.
Proof.
  destruct scratch_names_fresh as (Hr & Ht & Hne).
  apply map_eq. intros k. subst fs3.
  destruct (decide (k = fname_time)) as [->|Hkt].
  { by rewrite lookup_delete_eq. }
  rewrite lookup_delete_ne by done.
  destruct (decide (k = fname_runlim)) as [->|Hkr].
  { by rewrite lookup_delete_eq. }
  rewrite lookup_delete_ne by done.
  by rewrite !lookup_insert_ne.
Qed.

(** [execute_case] after its scratch files are created and the tool has
    run: the report of time is parsed, then the outcome is asserted to
    be a permitted one, then the scratch files are deleted. *)
Lemma execute_case_run :
  execute_case opts world before after tool extra_opts case fs =
  match parse_time_lines (None, None, None) (Py.file_lines (time_report run)) with
  | Raise e => (fs3, Raise e)
  | Ret (mem_used_MB, perc_CPU, exit_status) =>
      if result_permitted outcome then
        (fs, Ret (mkResult (Some outcome) mem_used_MB exit_status perc_CPU
                    (Some (Qmake (after - before) 1000000000))
                    (Some (inject_Z (timeout opts))) case (run_stderr run)))
      else (fs3, Raise AssertionError)
  end.
Proof.
  destruct scratch_names_fresh as (Hr & Ht & Hne).
  pose proof scratch_files_removed as Hdel.
  destruct Hstart as (fs1 & fs2 & H1 & H2 & Hrun).
  pose proof H1 as [_ ->]%unique_file_fresh.
  pose proof H2 as [_ ->]%unique_file_fresh.
  unfold execute_case, mbind, M_bind at 1. rewrite H1.
  unfold M_bind at 1. rewrite H2.
  unfold M_bind at 1. unfold subprocess_run. rewrite <- Hrun.
  fold fs3. unfold M_bind at 1, read_file at 1.
  assert (Hlr : fs3 !! fname_runlim = Some (runlim_report run)).
  { subst fs3. rewrite lookup_insert_ne by done. by rewrite lookup_insert_eq. }
  assert (Hlt : fs3 !! fname_time = Some (time_report run)).
  { subst fs3. by rewrite lookup_insert_eq. }
  rewrite Hlr. unfold M_bind at 1, read_file at 1. rewrite Hlt.
  unfold M_bind at 1, lift.
  destruct (parse_time_lines _ _) as [[[mem cpu] ex]|e]; [| done].
  fold outcome. destruct (result_permitted outcome); [| done].
  unfold M_bind at 1, unlink at 1. rewrite Hlr.
  unfold M_bind at 1, unlink at 1.
  rewrite lookup_delete_ne by done. rewrite Hlt. rewrite Hdel.
  reflexivity.
Qed.

End Run.








Lemma no_telemetry_readable (report : string) :
  Spec.no_telemetry report → Spec.telemetry_readable report.
Proof.
  unfold Spec.no_telemetry, Spec.telemetry_readable.
  generalize (None : option Q, None : option Z, None : option Z).
  induction (Py.file_lines report) as [|l lines IH]; intros vars H.
  - by exists vars.
  - apply Forall_cons in H as [(H1 & H2 & H3) H]. simpl.
    unfold parse_time_line. destruct vars as [[mem cpu] ex].
    rewrite H1, H2, H3. simpl. by apply IH.
Qed.

End Execution.

Section Outcome.

Import Bench.










(** The exception of a run without a tagged line is the one of [int]: here
    the report of time has an exit status that is not a number. *)
Lemma unreadable_telemetry_raises :
  Forall Spec.untagged (Py.split_nl (run_stdout Examples.run_bad_telemetry))
  ∧ snd (execute_case Examples.opts25 (Examples.world_of Examples.run_bad_telemetry)
           0 1500000000 "tools/hevm.sh" ["--solver"; "z3"] Examples.foo
           Examples.fs_stale)
    = Raise (ValueError "invalid literal for int() with base 10: n/a").
Proof. split; [repeat constructor | vm_compute; reflexivity]. Qed.

End Outcome.

Section Persisted.

Import Bench.

Lemma result_permitted_cases (o : string) :
  result_permitted o = true ↔ o = "safe" ∨ o = "unsafe" ∨ o = "unknown".
Proof.
  unfold result_permitted. rewrite !orb_true_iff, !String.eqb_eq. tauto.
Qed.

(** The JSON record of a result with a permitted outcome: [correct] is
    [None] exactly for [unknown], and else tells whether the outcome is the
    expected one. *)
Lemma json_correct (opts : Options) (r : Result) (o : string) :
  result r = Some o → result_permitted o = true →
  field "correct" (ResultEncoder_default opts r)
  = Some (if String.eqb o "unknown" then VNone
          else VBool (String.eqb o (expected (case r)))).
Proof.
  intros Hr Ho. apply result_permitted_cases in Ho.
  unfold ResultEncoder_default. rewrite Hr. simpl.
  destruct Ho as [-> | [-> | ->]]; reflexivity.
Qed.

(** The CSV row of a result whose outcome is a string: [correct] is always
    the integer 0 or 1; it is empty only for a result that holds [None]. *)
Lemma csv_correct (py_str : pyval → string) (opts : Options) (solver : string)
    (r : Result) :
  field "correct" (csv_row py_str opts solver r)
  = Some (match result r with
          | Some o => VInt (Z.b2z (String.eqb o (expected (case r))))
          | None => VStr ""
          end).
Proof. reflexivity. Qed.

(** C2, on the code. For the result of a run that timed out on a case
    expected to be safe, whose outcome is [unknown], the JSON record has
    [correct] set to [None], as specified, but the row of the CSV file has
    the definite value 0. *)
Theorem csv_correct_is_definite_for_unknown (py_str : pyval → string) :
  execute_case Examples.opts25 (Examples.world_of Examples.run_timed_out)
    0 25300000000 "tools/halmos.sh" [] Examples.bar Examples.fs_stale
  = (Examples.fs_stale, Ret Examples.unknown_result)
  ∧ result Examples.unknown_result = Some "unknown"
  ∧ field "correct" (ResultEncoder_default Examples.opts25 Examples.unknown_result)
    = Some VNone
  ∧ field "correct"
      (csv_row py_str Examples.opts25 "halmos-0.2.1-tstamp-2023-10-02-10:00"
               Examples.unknown_result)
    = Some (VInt 0)
  ∧ map (field "correct")
      (snd (dump_results py_str Examples.opts25
              [("halmos-0.2.1-tstamp-2023-10-02-10:00", [Examples.unknown_result])]))
    = [Some (VInt 0)].
Proof. split; [vm_compute; reflexivity | repeat split]. Qed.

End Persisted.


(** * Properties of gen_graphs.py *)

Section Curve.

Import GenGraphs.

Lemma lt_below (t : Q) (a : Z) : Py.lt t (inject_Z a) = Spec.below t a.
Proof.
  unfold Py.lt, Spec.below.
  destruct (Qlt_le_dec t (inject_Z a)) as [Hlt|Hle];
    destruct (Qcompare t (inject_Z a)) eqn:Hc; try reflexivity.
  - pose proof (proj2 (Qeq_alt _ _) Hc) as He.
    rewrite He in Hlt. destruct (Qlt_irrefl _ Hlt).
  - pose proof (proj2 (Qgt_alt _ _) Hc) as Hg.
    destruct (Qlt_irrefl _ (Qlt_trans _ _ _ Hlt Hg)).
  - pose proof (proj2 (Qlt_alt _ _) Hc) as Hl.
    destruct (Qlt_not_le _ _ Hl Hle).
Qed.

Lemma below_mono (t : Q) (a b : Z) :
  (a ≤ b)%Z → Spec.below t a = true → Spec.below t b = true.
Proof.
  unfold Spec.below. intros Hab.
  destruct (Qlt_le_dec t (inject_Z a)) as [Hlt|]; [| discriminate].
  intros _. destruct (Qlt_le_dec t (inject_Z b)) as [|Hle]; [reflexivity |].
  rewrite Zle_Qle in Hab.
  destruct (Qlt_not_le _ _ Hlt (Qle_trans _ _ _ Hab Hle)).
Qed.

Lemma count_below_acc (time : list Q) (a acc : Z) :
  fold_left (fun num t => if Py.lt t (inject_Z a) then num + 1 else num)%Z time acc
  = (acc + Spec.solved_below time a)%Z.
Proof.
  unfold Spec.solved_below. revert acc.
  induction time as [|t time IH]; intros acc; simpl.
  - lia.
  - rewrite IH, lt_below. destruct (Spec.below t a); simpl; lia.
Qed.

(** The count of a bucket is the number of times below its edge. *)
Lemma count_below_spec (time : list Q) (a : Z) :
  count_below time a = Spec.solved_below time a.
Proof. unfold count_below. rewrite count_below_acc. lia. Qed.

Lemma solved_below_nonneg (time : list Q) (a : Z) : (0 ≤ Spec.solved_below time a)%Z.
Proof. unfold Spec.solved_below. lia. Qed.

Lemma solved_below_mono (time : list Q) (a b : Z) :
  (a ≤ b)%Z → (Spec.solved_below time a ≤ Spec.solved_below time b)%Z.
Proof.
  intros Hab. unfold Spec.solved_below.
  induction time as [|t time IH]; simpl; [lia |].
  destruct (Spec.below t a) eqn:Ha.
  - rewrite (below_mono _ _ _ Hab Ha). simpl. lia.
  - destruct (Spec.below t b); simpl; lia.
Qed.

Lemma range_S (n : nat) : range (S n) = (range n ++ [Z.of_nat n])%list.
Proof. unfold range. by rewrite seq_S, map_app. Qed.

Lemma cdf_loop_S (time : list Q) (n : nat) :
  cdf_loop time (range (S n)) = cdf_step time (cdf_loop time (range n)) (Z.of_nat n).
Proof. unfold cdf_loop. by rewrite range_S, fold_left_app. Qed.

(** What the loop of [convert_to_cdf] has done after the buckets below [n]:
    the tracker holds the count of the last bucket, a row is written for a
    bucket exactly when its count differs from the tracker, the rows
    increase, and the last row holds the count of the last bucket. *)
Lemma cdf_loop_inv (time : list Q) (n : nat) :
  let lastnum := fst (cdf_loop time (range n)) in
  let rows := snd (cdf_loop time (range n)) in
  lastnum = (if decide (n = 0%nat) then -1 else Spec.solved_below time (Z.of_nat n - 1))%Z
  ∧ (∀ num a, (num, a) ∈ rows ↔
       (0 ≤ a < Z.of_nat n)%Z ∧ num = Spec.solved_below time a
       ∧ (a = 0%Z ∨ Spec.solved_below time (a - 1) ≠ num))
  ∧ StronglySorted Spec.rows_increase rows
  ∧ (n ≠ 0%nat → ∃ a, last rows = Some (lastnum, a)).
Proof.
  induction n as [|n IH]; simpl.
  - split; [reflexivity |]. split; [| split].
    + intros num a. split; [by intros ?%elem_of_nil | lia].
    + constructor.
    + done.
  - rewrite cdf_loop_S.
    destruct (cdf_loop time (range n)) as [lastnum rows]. simpl in IH.
    destruct IH as (Hlast & Hrows & Hsorted & Hend).
    unfold cdf_step. rewrite count_below_spec.
    set (num := Spec.solved_below time (Z.of_nat n)).
    assert (Hle : (lastnum ≤ num)%Z).
    { rewrite Hlast. subst num. case_decide.
      - pose proof (solved_below_nonneg time (Z.of_nat n)). lia.
      - apply solved_below_mono. lia. }
    assert (Hprev : n ≠ 0%nat → lastnum = Spec.solved_below time (Z.of_nat n - 1)).
    { intros Hn. rewrite Hlast. by case_decide. }
    destruct (Z.eqb_spec lastnum num) as [Heq|Hne]; simpl.
    + split; [| split; [| split]].
      * subst num. f_equal. lia.
      * intros num' a. rewrite Hrows. split; [intros (? & ? & ?); split; [lia | done] |].
        intros (Ha & -> & Hchg). split; [| done].
        destruct (decide (a = Z.of_nat n)) as [->|]; [| lia].
        exfalso. destruct (decide (n = 0%nat)) as [->|Hn].
        -- pose proof (solved_below_nonneg time (Z.of_nat 0)). subst num. lia.
        -- destruct Hchg as [|Hchg]; [lia |]. apply Hchg.
           rewrite <- Hprev by done. done.
      * done.
      * intros _. destruct (decide (n = 0%nat)) as [->|Hn].
        -- pose proof (solved_below_nonneg time (Z.of_nat 0)). subst num. lia.
        -- destruct (Hend Hn) as [a Ha]. exists a. by rewrite <- Heq.
    + split; [| split; [| split]].
      * subst num. f_equal. lia.
      * intros num' a. rewrite elem_of_app, list_elem_of_singleton, Hrows.
        split.
        -- intros [(? & ? & ?) | [= -> ->]]; [split; [lia | done] |].
           split; [lia |]. split; [done |].
           destruct (decide (n = 0%nat)) as [->|Hn]; [by left | right].
           rewrite <- Hprev by done. replace (Z.of_nat n - 1 + 1 - 1)%Z with (Z.of_nat n - 1)%Z by lia. done.
        -- intros (Ha & -> & Hchg).
           destruct (decide (a = Z.of_nat n)) as [->|]; [by right | left].
           split; [lia | done].
      * apply StronglySorted_app. split; [| split; [done | repeat constructor]].
        intros [num' a'] x2 H1 ->%list_elem_of_singleton.
        apply Hrows in H1 as (Ha' & -> & _).
        assert (Hn : n ≠ 0%nat) by lia.
        split; simpl; [| lia].
        pose proof (solved_below_mono time a' (Z.of_nat n - 1)) as Hm.
        rewrite <- Hprev in Hm by done. lia.
      * intros _. exists (Z.of_nat n). apply last_snoc.
Qed.

Lemma cdf_rows_inv (time : list Q) :
  (∀ num a, (num, a) ∈ cdf_rows time ↔
     (0 ≤ a < 3600)%Z ∧ num = Spec.solved_below time a
     ∧ (a = 0%Z ∨ Spec.solved_below time (a - 1) ≠ num))
  ∧ StronglySorted Spec.rows_increase (cdf_rows time)
  ∧ ∃ a, last (cdf_rows time) = Some (Spec.solved_below time 3599, a).
Proof.
  destruct (cdf_loop_inv time 3600) as (Hlast & Hrows & Hsorted & Hend).
  unfold cdf_rows. split; [exact Hrows |]. split; [exact Hsorted |].
  destruct Hend as [a Ha]; [done |]. exists a. rewrite Ha, Hlast. reflexivity.
Qed.

(** The table is never empty: its first row is written for bucket 0, with
    the number of times below 0. *)
Lemma cdf_rows_head (time : list Q) :
  ∃ rest, cdf_rows time = (Spec.solved_below time 0, 0%Z) :: rest.
Proof.
  destruct (cdf_rows_inv time) as (Hrows & Hsorted & _).
  assert (Hin : (Spec.solved_below time 0, 0%Z) ∈ cdf_rows time).
  { apply Hrows. split; [lia |]. split; [done | by left]. }
  destruct (cdf_rows time) as [|[num a] rest]; [by apply elem_of_nil in Hin |].
  exists rest. f_equal.
  apply elem_of_cons in Hin as [Heq | Hin]; [done |].
  apply StronglySorted_cons in Hsorted as [Hall _].
  rewrite Forall_forall in Hall. apply Hall in Hin as [_ Hlt]. simpl in Hlt.
  assert (Hhd : (num, a) ∈ (num, a) :: rest) by apply list_elem_of_here.
  apply Hrows in Hhd as (Ha & _). lia.
Qed.

Lemma solved_below_0_nonneg (time : list Q) :
  Forall (fun t => (0 <= t)%Q) time → Spec.solved_below time 0 = 0%Z.
Proof.
  unfold Spec.solved_below. induction 1 as [|t time Ht _ IH]; simpl; [done |].
  unfold Spec.below at 1.
  destruct (Qlt_le_dec t (inject_Z 0)) as [Hlt|]; [| exact IH].
  destruct (Qlt_not_le _ _ Hlt Ht).
Qed.

(** C8. The rows of the cumulative curve increase strictly, in count and in
    time, from every row to every later one; and a row is written for a
    bucket exactly when its count differs from the count of the bucket
    before it, the first bucket always having a row. *)
Theorem cdf_rows_step_function (time : list Q) :
  StronglySorted Spec.rows_increase (cdf_rows time)
  ∧ (∀ num a, (num, a) ∈ cdf_rows time ↔
       (0 ≤ a < 3600)%Z ∧ num = count_below time a
       ∧ (a = 0%Z ∨ count_below time (a - 1) ≠ num)).
Proof.
  destruct (cdf_rows_inv time) as (Hrows & Hsorted & _).
  split; [exact Hsorted |].
  intros num a. rewrite !count_below_spec. apply Hrows.
Qed.

(** C3, as amended. The count of the last row of the cumulative curve is the
    count of bucket edge 3599, which is the number of elapsed times
    strictly less than 3599 seconds. *)
Theorem cdf_last_row_counts_below_3599 (time : list Q) :
  count_below time 3599 = Spec.solved_below time 3599
  ∧ ∃ a, last (cdf_rows time) = Some (Spec.solved_below time 3599, a).
Proof.
  split; [apply count_below_spec |].
  by destruct (cdf_rows_inv time) as (_ & _ & H).
Qed.

(** C3, as stated, fails: a case solved in 3599.5 seconds is below 3600
    seconds but is not counted in the last row. *)
Lemma cdf_last_row_misses_below_3600 :
  Spec.solved_below Examples.times_late 3600 = 1%Z
  ∧ cdf_rows Examples.times_late = [(0, 0)%Z]
  ∧ ¬ ∃ a, last (cdf_rows Examples.times_late)
           = Some (Spec.solved_below Examples.times_late 3600, a).
Proof.
  assert (H1 : Spec.solved_below Examples.times_late 3600 = 1%Z).
  { rewrite <- count_below_spec. reflexivity. }
  assert (H2 : cdf_rows Examples.times_late = [(0, 0)%Z]) by (vm_compute; reflexivity).
  split; [exact H1 |]. split; [exact H2 |].
  rewrite H1, H2. intros [a Ha]. discriminate Ha.
Qed.

(** C10. When no elapsed time is negative, the table of the cumulative curve
    begins with the row of count 0 at bucket edge 0; so it is never empty. *)
Theorem cdf_rows_begin_at_origin (time : list Q) :
  Forall (fun t => (0 <= t)%Q) time →
  ∃ rest, cdf_rows time = (0, 0)%Z :: rest.
Proof.
  intros Hnonneg. destruct (cdf_rows_head time) as [rest Hrest].
  exists rest. by rewrite Hrest, solved_below_0_nonneg.
Qed.

Lemma cdf_rows_begin_at_origin_witness :
  Forall (fun t => (0 <= t)%Q) Examples.times_three
  ∧ ∃ rest, cdf_rows Examples.times_three = (0, 0)%Z :: rest.
Proof.
  assert (H : Forall (fun t => (0 <= t)%Q) Examples.times_three).
  { repeat constructor; unfold Qle; simpl; lia. }
  split; [exact H |]. exact (cdf_rows_begin_at_origin Examples.times_three H).
Defined.

End Curve.

Section Validation.

Import GenGraphs.

Lemma W_bind_raise {A B : Type} (m : W A) (f : A → W B) (tr : list event) (e : exn) :
  m = (tr, Raise e) → mbind f m = (tr, Raise e).
Proof. intros ->. reflexivity. Qed.

Lemma W_bind_ret {A B : Type} (m : W A) (f : A → W B) (tr : list event) (b : B) :
  mbind f m = (tr, Ret b) →
  ∃ tr1 a tr2, m = (tr1, Ret a) ∧ f a = (tr2, Ret b) ∧ tr = (tr1 ++ tr2)%list.
Proof.
  unfold mbind, W_bind. destruct m as [tr1 [a|e]]; [| discriminate].
  destruct (f a) as [tr2 r] eqn:Hf. intros [= <- ->]. by exists tr1, a, tr2.
Qed.

Lemma for_each_emit {A : Type} (l : list A) (ev : A → event) :
  for_each l (fun x => emit (ev x)) = (map ev l, Ret tt).
Proof.
  induction l as [|x l IH]; [reflexivity |].
  simpl. rewrite IH. reflexivity.
Qed.

(** Every timeout bound has an equal one among the values of the groups. *)
Lemma distinct_represents (l : list Q) (x : Q) :
  x ∈ l → ∃ z, z ∈ distinct Qeq_bool l ∧ (x == z)%Q.
Proof.
  induction l as [|y l IH]; [by intros ?%elem_of_nil |].
  intros [->|Hx]%elem_of_cons; simpl.
  - exists y. split; [apply list_elem_of_here | reflexivity].
  - destruct (IH Hx) as (z & Hz & Hxz).
    destruct (Qeq_bool y z) eqn:Hyz.
    + exists y. split; [apply list_elem_of_here |].
      apply Qeq_bool_eq in Hyz. by rewrite Hxz, Hyz.
    + exists z. split; [| done]. apply list_elem_of_further.
      apply list_elem_of_filter. split; [| done]. by rewrite Hyz.
Qed.

Lemma distinct_single (l : list Q) :
  (length (distinct Qeq_bool l) ≤ 1)%nat → ∀ x y, x ∈ l → y ∈ l → (x == y)%Q.
Proof.
  destruct l as [|h l]; [intros _ x y ?%elem_of_nil; done |].
  simpl. intros Hlen.
  assert (Hnil : filter (fun y => negb (Qeq_bool h y)) (distinct Qeq_bool l) = []).
  { destruct (filter _ _); [done | simpl in Hlen; lia]. }
  assert (Hall : ∀ x, x ∈ h :: l → (x == h)%Q).
  { intros x [->|Hx]%elem_of_cons; [reflexivity |].
    destruct (distinct_represents l x Hx) as (z & Hz & Hxz).
    destruct (Qeq_bool h z) eqn:Hhz.
    - apply Qeq_bool_eq in Hhz. by rewrite Hxz, Hhz.
    - assert (Hin : z ∈ filter (fun y => negb (Qeq_bool h y)) (distinct Qeq_bool l)).
      { apply list_elem_of_filter. split; [by rewrite Hhz | done]. }
      rewrite Hnil in Hin. by apply elem_of_nil in Hin. }
  intros x y Hx Hy. rewrite (Hall x Hx), (Hall y Hy). reflexivity.
Qed.

Lemma mixed_timeouts_groups (db : list row) :
  Spec.mixed_timeouts db → (1 < length (distinct Qeq_bool (map r_tout db)))%nat.
Proof.
  intros (r1 & r2 & H1 & H2 & Hne).
  destruct (decide (1 < length (distinct Qeq_bool (map r_tout db)))%nat) as [|Hle];
    [done |].
  destruct Hne. apply (distinct_single (map r_tout db)); [lia | |];
    by apply list_elem_of_fmap_2.
Qed.

(** The validation of a result set with mixed timeout bounds, and of an
    empty one: a diagnostic is printed and the process exits with -1. *)
Lemma check_all_same_tout_rejects (db : list row) :
  Spec.mixed_timeouts db ∨ db = [] →
  ∃ tr, check_all_same_tout db = (tr, Raise (SystemExit (-1)))
        ∧ Forall Spec.diagnostic tr ∧ (∃ msg, Print msg ∈ tr).
Proof.
  unfold check_all_same_tout. intros [Hmixed| ->].
  - apply mixed_timeouts_groups in Hmixed. apply Nat.ltb_lt in Hmixed.
    rewrite Hmixed. rewrite for_each_emit. unfold mbind, W_bind, emit, raise. simpl.
    eexists. split; [reflexivity |]. split.
    + constructor; [done |]. apply Forall_app. split; [| by repeat constructor].
      apply Forall_forall. intros e (t & -> & _)%list_elem_of_fmap. done.
    + eexists. apply list_elem_of_here.
  - simpl. eexists. split; [reflexivity |]. split; [by repeat constructor |].
    eexists. apply list_elem_of_here.
Qed.

(** C5. When the result set holds two different timeout bounds, and when it
    is empty, the validation prints a diagnostic and exits with the nonzero
    status -1; the main program then ends there, having made the directory
    for the graphs and nothing else: no table is written and gnuplot is not
    run. *)
Theorem validation_rejects (sql_text : Q → string) (py_float : string → option Q)
    (db : list row) :
  Spec.mixed_timeouts db ∨ db = [] →
  ∃ tr, check_all_same_tout db = (tr, Raise (SystemExit (-1)))
        ∧ main sql_text py_float db = (Mkdir "graphs" :: tr, Raise (SystemExit (-1)))
        ∧ (-1 ≠ 0)%Z
        ∧ (∃ msg, Print msg ∈ tr)
        ∧ Forall (fun e => ¬ Spec.aggregate_output e) (Mkdir "graphs" :: tr).
Proof.
  intros H. destruct (check_all_same_tout_rejects db H) as (tr & Hcheck & Hdiag & Hmsg).
  exists tr. split; [exact Hcheck |]. split; [| split; [lia | split; [exact Hmsg |]]].
  - unfold main. unfold mbind at 1, W_bind at 1, emit at 1.
    rewrite (W_bind_raise _ _ _ _ Hcheck). reflexivity.
  - constructor; [by intros [] |].
    eapply Forall_impl; [exact Hdiag |]. intros [] Hd Ha; done.
Qed.

Lemma validation_rejects_witness :
  Spec.mixed_timeouts Examples.db_mixed
  ∧ fst (main (fun _ => "") (fun _ => None) Examples.db_mixed)
    = [Mkdir "graphs";
       Print "ERROR. Some systems were ran with differing timeouts: ";
       PrintTimeout 25; PrintTimeout 60;
       Print "You must delete the results.db database and run all with the same timeouts"]
  ∧ snd (main (fun _ => "") (fun _ => None) Examples.db_mixed)
    = Raise (SystemExit (-1))
  ∧ main (fun _ => "") (fun _ => None) [] =
    ([Mkdir "graphs"; Print "ERROR: no data in database!"], Raise (SystemExit (-1))).
Proof.
  assert (Hmixed : Spec.mixed_timeouts Examples.db_mixed).
  { exists Examples.row_A, (mkRow "C" "src/unsafe/1tx-abstract/Foo.sol:Foo" "unsafe" 30 60).
    split; [apply list_elem_of_here |]. split; [| by intros H; vm_compute in H].
    do 2 apply list_elem_of_further. apply list_elem_of_here. }
  split; [exact Hmixed |].
  destruct (validation_rejects (fun _ => "") (fun _ => None) Examples.db_mixed
              (or_introl Hmixed)) as (tr & Hc & Hm & _).
  destruct (validation_rejects (fun _ => "") (fun _ => None) []
              (or_intror eq_refl)) as (tr' & Hc' & Hm' & _).
  rewrite Hm, Hm'. vm_compute in Hc. vm_compute in Hc'.
  injection Hc as <-. injection Hc' as <-.
  repeat split.
Defined.

End Validation.

Section BestTime.

Import GenGraphs.

Lemma min_same (a : Q) : Py.min a a = a.
Proof. unfold Py.min. destruct (Qcompare a a); reflexivity. Qed.

(** [Py.min] gives the lesser of its arguments. *)
Lemma min_is_Qmin (a b : Q) : (Py.min a b == Qmin a b)%Q.
Proof.
  unfold Py.min. destruct (Qcompare b a) eqn:Hc.
  - pose proof (proj2 (Qeq_alt _ _) Hc) as He.
    rewrite Q.min_l; [reflexivity | rewrite He; apply Qle_refl].
  - pose proof (proj2 (Qlt_alt _ _) Hc) as Hl.
    rewrite Q.min_r; [reflexivity | by apply Qlt_le_weak].
  - pose proof (proj2 (Qgt_alt _ _) Hc) as Hg.
    rewrite Q.min_l; [reflexivity | by apply Qlt_le_weak].
Qed.

Lemma box_row_loop_app (instance : string) (st : gmap string Q * option Q)
    (l1 l2 : list row) :
  box_row_loop instance st (l1 ++ l2)
  = st' ← box_row_loop instance st l1; box_row_loop instance st' l2.
Proof.
  revert st. induction l1 as [|l l1 IH]; intros st; simpl; [reflexivity |].
  destruct (box_row_step instance st l) as [st'|e]; simpl; [apply IH | reflexivity].
Qed.

(** Rows of other solvers leave the entry of [solver] as it is. *)
Lemma box_row_loop_other (instance solver : string) (rows : list row)
    (st st' : gmap string Q * option Q) :
  Forall (fun l => r_solver l ≠ solver) rows →
  box_row_loop instance st rows = Ret st' →
  fst st' !! solver = fst st !! solver.
Proof.
  intros Hrows. revert st.
  induction Hrows as [|l rows Hl _ IH]; intros st; simpl.
  - by intros [= ->].
  - unfold box_row_step at 1. destruct st as [solve_time tout].
    destruct (String.eqb instance (r_name l)); [| discriminate].
    simpl. intros H. rewrite (IH _ H). simpl. by rewrite lookup_insert_ne.
Qed.

(** After the rows selected for an instance, the entry of a solver is the
    value of its last row. *)
Lemma box_row_loop_last (instance : string) (pre post : list row) (r : row)
    (st st' : gmap string Q * option Q) :
  Forall (fun l => r_solver l ≠ r_solver r) post →
  box_row_loop instance st (pre ++ r :: post) = Ret st' →
  fst st' !! r_solver r = Some (Py.min (time_or_tout r) (r_tout r)).
Proof.
  intros Hpost. rewrite box_row_loop_app.
  destruct (box_row_loop instance st pre) as [[solve_time tout]|e]; [| discriminate].
  unfold mbind at 1, res_bind at 1. simpl.
  destruct (String.eqb instance (r_name r)); [| discriminate].
  unfold mbind at 1, res_bind at 1. intros H. rewrite (box_row_loop_other _ _ _ _ _ Hpost H). simpl.
  by rewrite lookup_insert_eq.
Qed.

(** The columns of a line are the entries of the solvers. *)
Lemma box_columns_lookup (instance : string) (solve_time : gmap string Q)
    (tout : option Q) (solvers : list string) (tr : list event) (ts : list Q) :
  box_columns instance solve_time tout solvers = (tr, Ret ts) →
  ∀ j solver, solvers !! j = Some solver → ts !! j = solve_time !! solver.
Proof.
  revert tr ts. induction solvers as [|s solvers IH]; intros tr ts; simpl.
  - intros _ j solver H. by rewrite lookup_nil in H.
  - destruct tout as [tout|]; [| discriminate].
    destruct (solve_time !! s) as [t|] eqn:Hs; [| discriminate].
    intros (tr1 & ts' & tr2 & Hcols & [= <- <-] & ->)%W_bind_ret.
    intros [|j] solver Hj; simpl in *.
    + by injection Hj as <-.
    + by apply (IH _ _ Hcols).
Qed.

(** The line of the instance at position [k] holds the columns computed
    after the rows selected for that instance. *)
Lemma box_lines_lookup (db : list row) (solvers instances : list string) (i : nat)
    (st : gmap string Q * option Q) (tr : list event)
    (lines : list (nat * string * list Q)) :
  box_lines db solvers i instances st = (tr, Ret lines) →
  ∀ k instance, instances !! k = Some instance →
  ∃ st0 st1 label ts tr',
    box_row_loop instance st0
      (filter (fun l => String.eqb (r_name l) instance) db) = Ret st1
    ∧ box_columns instance (fst st1) (snd st1) solvers = (tr', Ret ts)
    ∧ lines !! k = Some (S (i + k), label, ts).
Proof.
  revert i st tr lines.
  induction instances as [|inst instances IH]; intros i st tr lines; simpl.
  - intros _ k instance H. by rewrite lookup_nil in H.
  - destruct (box_row_loop inst st _) as [st1|e] eqn:Hrows; [| discriminate].
    match goal with
    | |- context [let '(_, _) := ?m in _] => destruct m as [tr' r0] eqn:Hrest
    end.
    intros [= <- ->].
    apply W_bind_ret in Hrest as (tr3 & ts & tr4 & Hcols & Hrest & ->).
    apply W_bind_ret in Hrest as (tr5 & lines' & tr6 & Hlines & [= <- <-] & ->).
    intros [|k] instance Hk; simpl in Hk.
    + injection Hk as <-. exists st, st1. do 3 eexists.
      split; [exact Hrows |]. split; [exact Hcols |].
      simpl. by rewrite Nat.add_0_r.
    + destruct (IH _ _ _ _ Hlines k instance Hk)
        as (st0 & st1' & label & ts' & tr' & H1 & H2 & H3).
      exists st0, st1', label, ts', tr'.
      split; [exact H1 |]. split; [exact H2 |].
      simpl. rewrite H3. do 3 f_equal. lia.
Qed.

Lemma filter_result_of (db : list row) (instance solver : string) (r : row) :
  Spec.result_of db instance solver r →
  ∃ pre post,
    filter (fun l => String.eqb (r_name l) instance) db = (pre ++ r :: post)%list
    ∧ Forall (fun l => r_solver l ≠ r_solver r) post.
Proof.
  intros (pre & post & -> & Hname & Hsolver & Hpost).
  exists (filter (fun l => String.eqb (r_name l) instance) pre),
         (filter (fun l => String.eqb (r_name l) instance) post).
  split.
  - rewrite filter_app, filter_cons_True; [done |].
    rewrite Hname. by rewrite String.eqb_refl.
  - apply Forall_forall. intros l [Hl Hin]%list_elem_of_filter.
    rewrite Forall_forall in Hpost. intros Heq. apply (Hpost l Hin).
    split; [| congruence].
    apply String.eqb_eq. by destruct (String.eqb (r_name l) instance).
Qed.

(** C4, as amended. The value that a solver contributes to the line of a
    case is the timeout bound when its outcome on the case is [unknown],
    and else the lesser of its measured time and the timeout bound. *)
Theorem box_value_is_time_or_timeout (db : list row) (instance solver : string)
    (v : Q) (r : row) :
  Spec.contributes db instance solver v →
  Spec.result_of db instance solver r →
  v = (if String.eqb (r_result r) "unknown" then r_tout r
       else Py.min (r_t r) (r_tout r))
  ∧ (r_result r ≠ "unknown" → (v == Qmin (r_t r) (r_tout r))%Q).
Proof.
  intros (tr & lines & i & j & label & ts & Hlines & Hi & Hj & Hline & Hv) Hr.
  destruct (box_lines_lookup _ _ _ _ _ _ _ Hlines i instance Hi)
    as (st0 & st1 & label' & ts' & tr' & Hloop & Hcols & Hline').
  rewrite Hline in Hline'. injection Hline' as _ <-.
  rewrite (box_columns_lookup _ _ _ _ _ _ Hcols j solver Hj) in Hv.
  destruct (filter_result_of _ _ _ _ Hr) as (pre & post & Hfilter & Hpost).
  rewrite Hfilter in Hloop.
  pose proof (box_row_loop_last _ _ _ _ _ _ Hpost Hloop) as Hlast.
  destruct Hr as (_ & _ & _ & _ & Hsolver & _). rewrite Hsolver in Hlast.
  rewrite Hlast in Hv. injection Hv as <-.
  unfold time_or_tout.
  destruct (String.eqb (r_result r) "unknown") eqn:Hu.
  - split; [apply min_same |]. apply String.eqb_eq in Hu. done.
  - split; [reflexivity |]. intros _. apply min_is_Qmin.
Qed.

Lemma contributes_two (solver : string) (j : nat) (v : Q) :
  [("A", 3.2%Q); ("B", 25%Q)] !! j = Some (solver, v) →
  Spec.contributes Examples.db_two "src/unsafe/1tx-abstract/Foo.sol:Foo" solver v.
Proof.
  intros Hj.
  exists [], [(1%nat, "Foo.sol:Foo", [3.2; 25]%Q)], 0%nat, j, "Foo.sol:Foo", [3.2; 25]%Q.
  split; [vm_compute; reflexivity |]. split; [reflexivity |].
  destruct j as [|[|j]]; simpl in Hj; try discriminate;
    injection Hj as <- <-; repeat split.
Defined.

Lemma result_of_two_A :
  Spec.result_of Examples.db_two "src/unsafe/1tx-abstract/Foo.sol:Foo" "A"
                 Examples.row_A.
Proof.
  exists [], [Examples.row_B]. repeat split.
  repeat constructor. intros [_ H]. discriminate H.
Defined.

Lemma result_of_two_B :
  Spec.result_of Examples.db_two "src/unsafe/1tx-abstract/Foo.sol:Foo" "B"
                 Examples.row_B.
Proof. exists [Examples.row_A], []. repeat split. constructor. Defined.

Lemma box_value_is_time_or_timeout_witness :
  (Spec.contributes Examples.db_two "src/unsafe/1tx-abstract/Foo.sol:Foo" "A" 3.2
   ∧ (3.2 == Qmin 3.2 25)%Q)
  ∧ (Spec.contributes Examples.db_two "src/unsafe/1tx-abstract/Foo.sol:Foo" "B" 25
     ∧ 25%Q = r_tout Examples.row_B).
Proof.
  pose proof (contributes_two "A" 0 3.2%Q eq_refl) as HA.
  pose proof (contributes_two "B" 1 25%Q eq_refl) as HB.
  split; (split; [assumption |]).
  - apply (box_value_is_time_or_timeout _ _ _ _ _ HA result_of_two_A).
    discriminate.
  - apply (box_value_is_time_or_timeout _ _ _ _ _ HB result_of_two_B).
Defined.

(** C4, as stated, fails: a solver that ended after one second without a
    verdict contributes the timeout bound of 25 seconds, which is not the
    lesser of its measured time and the bound. *)
Lemma box_value_of_unknown_is_not_the_lesser :
  Spec.result_of Examples.db_two "src/unsafe/1tx-abstract/Foo.sol:Foo" "B"
                 Examples.row_B
  ∧ r_result Examples.row_B = "unknown"
  ∧ Spec.contributes Examples.db_two "src/unsafe/1tx-abstract/Foo.sol:Foo" "B" 25
  ∧ ¬ (25 == Qmin (r_t Examples.row_B) (r_tout Examples.row_B))%Q.
Proof.
  split; [apply result_of_two_B |]. split; [reflexivity |].
  split; [exact (contributes_two "B" 1 25%Q eq_refl) |].
  intros H. vm_compute in H. discriminate H.
Qed.

End BestTime.


(** * Further properties of bench.py *)

Section ScratchFiles.

Import Bench.




End ScratchFiles.

Section ExecutionOutcomes.

Import Bench.

(** An execution either gets its two scratch files and runs the tool, or
    it ends with the exit of [unique_file]: at the first file, with the
    files untouched, or at the second, with the first file left empty. *)
Lemma execute_case_start (opts : Options) (world : list string → Run)
    (before after : Z) (tool : string) (extra_opts : list string) (case : Case)
    (fs : gmap string string) :
  (∃ fname_runlim fname_time run,
     Spec.started opts world tool extra_opts case fs fname_runlim fname_time run)
  ∨ execute_case opts world before after tool extra_opts case fs
    = (fs, Raise (SystemExit (-1)))
  ∨ (∃ fname_runlim,
       unique_file "output" fs = (<[fname_runlim := ""]> fs, Ret fname_runlim)
       ∧ execute_case opts world before after tool extra_opts case fs
         = (<[fname_runlim := ""]> fs, Raise (SystemExit (-1)))).
Proof.
  destruct (unique_file "output" fs) as [fs1 [fr|e]] eqn:H1.
  - destruct (unique_file "output" fs1) as [fs2 [ft|e]] eqn:H2.
    + left. exists fr, ft. eexists. exists fs1, fs2. done.
    + right. right. exists fr.
      pose proof H1 as [_ ->]%unique_file_fresh.
      pose proof H2 as [-> ->]%unique_file_fails.
      split; [done |].
      unfold execute_case, mbind, M_bind at 1. rewrite H1.
      unfold M_bind at 1. by rewrite H2.
  - right. left. pose proof H1 as [-> ->]%unique_file_fails.
    unfold execute_case, mbind, M_bind at 1. by rewrite H1.
Qed.

(** X3. Every [Result] that [execute_case] returns has one of the three
    outcomes [safe], [unsafe] and [unknown]; it refers to the case that was
    run, its time is the difference of the two readings of the clock in
    seconds, its timeout bound is the one of the options, and its output is
    the standard error of the tool. *)
Theorem execute_case_result_fields (opts : Options) (world : list string → Run)
    (before after : Z) (tool : string) (extra_opts : list string) (case : Case)
    (fs fs' : gmap string string) (r : Result) :
  execute_case opts world before after tool extra_opts case fs = (fs', Ret r) →
  (result r = Some "safe" ∨ result r = Some "unsafe" ∨ result r = Some "unknown")
  ∧ Bench.case r = case
  ∧ t r = Some (Qmake (after - before) 1000000000)
  ∧ tout r = Some (inject_Z (timeout opts))
  ∧ ∃ fname_runlim fname_time run,
      Spec.started opts world tool extra_opts case fs fname_runlim fname_time run
      ∧ out r = run_stderr run.
Proof.
  intros Hret.
  destruct (execute_case_start opts world before after tool extra_opts case fs)
    as [(fr & ft & run & Hstart) | [Hexit | (fr & _ & Hexit)]];
    [| rewrite Hexit in Hret; discriminate..].
  rewrite (execute_case_run _ _ before after _ _ _ _ _ _ _ Hstart) in Hret.
  destruct (parse_time_lines _ _) as [[[mem cpu] ex]|e]; [| discriminate].
  destruct (result_permitted _) eqn:Hp; [| discriminate].
  injection Hret as _ <-. simpl.
  apply result_permitted_cases in Hp.
  split; [destruct Hp as [-> | [-> | ->]]; auto |].
  repeat split. by exists fr, ft, run.
Qed.


End ExecutionOutcomes.


Section Telemetry.

Import Bench.





End Telemetry.

Section ExecutionExamples.

Import Bench.

Lemma execute_case_result_fields_witness :
  execute_case Examples.opts25 (Examples.world_of Examples.run_two_verdicts)
    0 1500000000 "tools/hevm.sh" ["--solver"; "z3"] Examples.foo Examples.fs_stale
  = (Examples.fs_stale, Ret Examples.unsafe_result)
  ∧ (result Examples.unsafe_result = Some "safe"
     ∨ result Examples.unsafe_result = Some "unsafe"
     ∨ result Examples.unsafe_result = Some "unknown")
  ∧ Bench.case Examples.unsafe_result = Examples.foo.
Proof.
  assert (Hret : execute_case Examples.opts25
                   (Examples.world_of Examples.run_two_verdicts)
                   0 1500000000 "tools/hevm.sh" ["--solver"; "z3"] Examples.foo
                   Examples.fs_stale
                 = (Examples.fs_stale, Ret Examples.unsafe_result))
    by (vm_compute; reflexivity).
  split; [exact Hret |].
  destruct (execute_case_result_fields _ _ _ _ _ _ _ _ _ _ Hret) as (H1 & H2 & _).
  split; [exact H1 | exact H2].
Defined.


End ExecutionExamples.

Section Whitespace.

Import Bench.

Lemma append_nil_r (s : string) : s +:+ "" = s.
Proof. induction s as [|c s IH]; [done |]. by rewrite append_cons, IH. Qed.

Lemma lstrip_spaces (ws s : string) :
  Spec.all_space ws = true → Py.lstrip (ws +:+ s) = Py.lstrip s.
Proof.
  induction ws as [|c ws IH]; [done |].
  intros H. simpl in H. apply andb_true_iff in H as [Hc Hws].
  rewrite append_cons. simpl. rewrite Hc. auto.
Qed.

Lemma rstrip_all_space (ws : string) :
  Spec.all_space ws = true → Py.rstrip ws = "".
Proof.
  induction ws as [|c ws IH]; [done |]. simpl.
  intros [Hc Hws]%andb_true_iff. by rewrite (IH Hws), Hc.
Qed.

Lemma rstrip_app_spaces (s ws : string) :
  Spec.all_space ws = true → Py.rstrip (s +:+ ws) = Py.rstrip s.
Proof.
  intros Hws. induction s as [|c s IH].
  - rewrite append_nil_l. by apply rstrip_all_space.
  - rewrite append_cons. simpl. by rewrite IH.
Qed.

Lemma rstrip_spaces_app (ws s : string) :
  Spec.all_space ws = true →
  Py.rstrip (ws +:+ s) = match Py.rstrip s with
                         | EmptyString => EmptyString
                         | r => ws +:+ r
                         end.
Proof.
  induction ws as [|c ws IH].
  - intros _. rewrite append_nil_l. by destruct (Py.rstrip s).
  - intros H. simpl in H. apply andb_true_iff in H as [Hc Hws].
    rewrite append_cons. simpl.
    rewrite (IH Hws). destruct (Py.rstrip s) as [|c' r]; [by rewrite Hc |].
    rewrite append_cons.
    destruct ws; [by rewrite append_nil_l | by rewrite append_cons].
Qed.

Lemma strip_surrounded (ws1 ws2 s : string) :
  Spec.all_space ws1 = true → Spec.all_space ws2 = true →
  Py.strip (ws1 +:+ s +:+ ws2) = Py.strip s.
Proof.
  intros H1 H2. unfold Py.strip.
  rewrite <- append_assoc, (rstrip_app_spaces _ _ H2), (rstrip_spaces_app _ _ H1).
  destruct (Py.rstrip s) as [|c r] eqn:Hr.
  - reflexivity.
  - by apply lstrip_spaces.
Qed.

(** X6. Whitespace before and after a line of the standard output changes
    neither whether the line is tagged nor its token. *)
Theorem tagged_ignores_surrounding_space (ws1 ws2 l : string) :
  Spec.all_space ws1 = true → Spec.all_space ws2 = true →
  match_result (Py.strip (ws1 +:+ l +:+ ws2)) = match_result (Py.strip l)
  ∧ ∀ tok, Spec.tagged (ws1 +:+ l +:+ ws2) tok ↔ Spec.tagged l tok.
Proof.
  intros H1 H2. unfold Spec.tagged. by rewrite (strip_surrounded _ _ _ H1 H2).
Qed.

Lemma tagged_ignores_surrounding_space_witness :
  Spec.all_space "  	" = true ∧ Spec.all_space " " = true
  ∧ match_result (Py.strip ("  	" +:+ "result: safe" +:+ " ")) = Some "safe".
Proof.
  split; [reflexivity |]. split; [reflexivity |].
  by rewrite (proj1 (tagged_ignores_surrounding_space "  	" " " "result: safe"
                       eq_refl eq_refl)).
Defined.

Lemma last_char_app (a b : string) :
  Spec.last_char (a +:+ b) = match Spec.last_char b with
                             | Some c => Some c
                             | None => Spec.last_char a
                             end.
Proof.
  induction a as [|c a IH].
  - rewrite append_nil_l. by destruct (Spec.last_char b).
  - rewrite append_cons. simpl. rewrite IH.
    by destruct (Spec.last_char b), (Spec.last_char a).
Qed.

Lemma last_char_rstrip (s : string) (c : ascii) :
  Spec.last_char (Py.rstrip s) = Some c → Py.is_space c = false.
Proof.
  revert c. induction s as [|c' s IH]; intros c; simpl; [discriminate |].
  destruct (Py.rstrip s) as [|c'' r] eqn:Hr.
  - destruct (Py.is_space c') eqn:Hc'; [discriminate |]. simpl. by intros [= <-].
  - change (Spec.last_char (String c' (String c'' r)))
      with (match Spec.last_char (String c'' r) with
            | Some x => Some x
            | None => Some c'
            end).
    destruct (Spec.last_char (String c'' r)) as [x|] eqn:Hx.
    + intros [= <-]. by apply IH.
    + simpl in Hx. by destruct (Spec.last_char r).
Qed.

Lemma last_char_lstrip (s : string) (c : ascii) :
  Spec.last_char (Py.lstrip s) = Some c → Spec.last_char s = Some c.
Proof.
  induction s as [|c' s IH]; simpl; [done |].
  destruct (Py.is_space c').
  - intros H. by rewrite (IH H).
  - done.
Qed.

Lemma last_char_strip (s : string) (c : ascii) :
  Spec.last_char (Py.strip s) = Some c → Py.is_space c = false.
Proof. intros H%last_char_lstrip. by eapply last_char_rstrip. Qed.

(** X7. The token of a tagged line of the standard output is never empty,
    has no newline and does not end with whitespace: a line that has
    nothing after [result: ] is not tagged. *)
Theorem tagged_token_shape (l tok : string) :
  Spec.tagged l tok →
  Py.strip l = "result: " +:+ tok
  ∧ tok ≠ ""
  ∧ Spec.has_nl tok = false
  ∧ ∃ c, Spec.last_char tok = Some c ∧ Py.is_space c = false.
Proof.
  unfold Spec.tagged. intros (tail & Hl & Hnl & Htail)%match_result_spec.
  assert (Hlast : ∀ c, Spec.last_char (Py.strip l) = Some c → Py.is_space c = false)
    by apply last_char_strip.
  rewrite Hl in Hlast. destruct Htail as [-> | ->].
  - rewrite append_nil_r in Hl, Hlast. split; [done |].
    rewrite last_char_app in Hlast.
    destruct (Spec.last_char tok) as [c|] eqn:Hc.
    + split; [by intros -> |]. split; [done |]. exists c. auto.
    + specialize (Hlast " "%char eq_refl). discriminate.
  - rewrite !last_char_app in Hlast. specialize (Hlast Py.nl eq_refl). discriminate.
Qed.

Lemma tagged_token_shape_witness :
  Spec.tagged "  result: unsafe " "unsafe"
  ∧ Py.strip "  result: unsafe " = "result: unsafe"
  ∧ Spec.untagged "result: ".
Proof.
  assert (H : Spec.tagged "  result: unsafe " "unsafe") by reflexivity.
  split; [exact H |]. split; [| reflexivity].
  exact (proj1 (tagged_token_shape _ _ H)).
Defined.

End Whitespace.

Section CatalogShape.

Import Bench.

Lemma determine_dstest_expected (sol_file : string) (b : bool) :
  determine_dstest sol_file = Ret b →
  ∃ e, determine_expected sol_file = Ret e ∧ (e = "safe" ∨ e = "unsafe").
Proof.
  intros [Hin|Hin]%determine_dstest_inside; apply inside_dir_under_root in Hin.
  - exists "safe". split; [by apply determine_expected_safe | auto].
  - exists "unsafe". split; [by apply determine_expected_unsafe | auto].
Qed.

Lemma mapM_Case_init (c json_fname sol_file e : string) (d : bool) (fs : list string) :
  determine_expected sol_file = Ret e →
  mapM_res (fun f => Case_init c json_fname sol_file d f) fs
  = Ret (map (fun f => mkCase c json_fname sol_file d f e) fs).
Proof.
  intros He. induction fs as [|f fs IH]; [done |].
  simpl. rewrite IH. unfold Case_init. by rewrite He.
Qed.

(** X8. For a build artifact that is not skipped and whose source is in one
    of the four directories, [gather_cases] constructs, in the unit-function
    mode, one case for every entry of the ABI whose name starts with
    [prove], in the order of the ABI, and in the whole-contract mode
    exactly one case with an empty function name; the construction of a
    case never raises. *)
Theorem catalog_cases (c json_fname sol_file : string) (abi : list (option string))
    (b : bool) :
  Py.startswith json_fname "out/build-info" = false →
  Py.startswith sol_file "src/common/" = false →
  Py.startswith sol_file "lib/" = false →
  determine_dstest sol_file = Ret b →
  ∃ e, determine_expected sol_file = Ret e
       ∧ cases_of_artifact c json_fname sol_file abi
         = Ret (if b then map (fun f => mkCase c json_fname sol_file true f e)
                              (get_prove_funcs abi)
                else [mkCase c json_fname sol_file false "" e])
       ∧ ∀ f, f ∈ get_prove_funcs abi ↔ Some f ∈ abi ∧ Spec.under_root "prove" f.
Proof.
  intros H1 H2 H3 Hds.
  destruct (determine_dstest_expected _ _ Hds) as (e & He & _).
  exists e. split; [done |]. split.
  - unfold cases_of_artifact. rewrite H1, H2, H3, Hds. simpl.
    destruct b.
    + by apply mapM_Case_init.
    + unfold Case_init. by rewrite He.
  - intros f. unfold get_prove_funcs. rewrite list_elem_of_omap. split.
    + intros ([f'|] & Hin & Hf); [| discriminate].
      destruct (Py.startswith f' "prove") eqn:Hp; [| discriminate].
      injection Hf as ->. split; [done |]. by apply startswith_under_root.
    + intros [Hin Hp]. exists (Some f). split; [done |].
      apply startswith_under_root in Hp. by rewrite Hp.
Qed.

Lemma catalog_cases_witness :
  cases_of_artifact "FooTest" "out/Foo.t.sol/FooTest.json"
    "src/safe/ds-test/Foo.t.sol"
    [Some "setUp"; None; Some "proveAdd"; Some "testAdd"; Some "prove_sub"]
  = Ret [mkCase "FooTest" "out/Foo.t.sol/FooTest.json" "src/safe/ds-test/Foo.t.sol"
                true "proveAdd" "safe";
         mkCase "FooTest" "out/Foo.t.sol/FooTest.json" "src/safe/ds-test/Foo.t.sol"
                true "prove_sub" "safe"].
Proof.
  destruct (catalog_cases "FooTest" "out/Foo.t.sol/FooTest.json"
              "src/safe/ds-test/Foo.t.sol"
              [Some "setUp"; None; Some "proveAdd"; Some "testAdd"; Some "prove_sub"]
              true eq_refl eq_refl eq_refl eq_refl) as (e & He & Hcases & _).
  injection He as <-. exact Hcases.
Defined.

(** X9. The body of [gather_cases] raises for an artifact exactly when the
    artifact is not skipped and [determine_dstest] raises for its source,
    and with the same exception; an artifact of the build information, of
    the common sources or of a library is skipped and gives no case. *)
Theorem catalog_raises (c json_fname sol_file : string) (abi : list (option string))
    (ex : exn) :
  (cases_of_artifact c json_fname sol_file abi = Raise ex
   ↔ Py.startswith json_fname "out/build-info" = false
     ∧ Py.startswith sol_file "src/common/" = false
     ∧ Py.startswith sol_file "lib/" = false
     ∧ determine_dstest sol_file = Raise ex)
  ∧ (Py.startswith json_fname "out/build-info" = true
     ∨ Py.startswith sol_file "src/common/" = true
     ∨ Py.startswith sol_file "lib/" = true →
     cases_of_artifact c json_fname sol_file abi = Ret []).
Proof.
  unfold cases_of_artifact.
  destruct (Py.startswith json_fname "out/build-info").
  { split; [split; [discriminate | by intros [? _]] | done]. }
  destruct (Py.startswith sol_file "src/common/").
  { split; [split; [discriminate | by intros (_ & ? & _)] | done]. }
  destruct (Py.startswith sol_file "lib/").
  { split; [split; [discriminate | by intros (_ & _ & ? & _)] | done]. }
  simpl. split; [| by intros [|[|]]].
  destruct (determine_dstest sol_file) as [b|e] eqn:Hds; simpl.
  - destruct (determine_dstest_expected _ _ Hds) as (e & He & _).
    split; [| by intros (_ & _ & _ & ?)].
    destruct b.
    + by rewrite (mapM_Case_init _ _ _ _ _ _ He).
    + unfold Case_init. by rewrite He.
  - split; [by intros [= ->] | by intros (_ & _ & _ & [= ->])].
Qed.

End CatalogShape.


Section PersistedShape.

Import Bench.

(** X10. For a result whose outcome is [safe] or [unsafe] the two files
    agree: the JSON record is marked solved, and its [correct] is true
    exactly when the [correct] of the CSV row is 1, which is when the
    outcome is the expected one. *)
Theorem formats_agree_on_solved (py_str : pyval → string) (opts : Options)
    (solver : string) (r : Result) (o : string) :
  result r = Some o → o = "safe" ∨ o = "unsafe" →
  ∃ b : bool,
    field "solved" (ResultEncoder_default opts r) = Some (VBool true)
    ∧ field "correct" (ResultEncoder_default opts r) = Some (VBool b)
    ∧ field "correct" (csv_row py_str opts solver r) = Some (VInt (Z.b2z b))
    ∧ (b = true ↔ o = expected (case r)).
Proof.
  intros Hr Ho. exists (String.eqb o (expected (case r))).
  unfold ResultEncoder_default, csv_row. rewrite Hr. simpl.
  rewrite String.eqb_eq.
  destruct Ho as [-> | ->]; simpl; done.
Qed.

Lemma formats_agree_on_solved_witness :
  field "correct" (ResultEncoder_default Examples.opts25 Examples.unsafe_result)
  = Some (VBool true)
  ∧ field "correct" (csv_row (fun _ => "") Examples.opts25 "hevm" Examples.unsafe_result)
    = Some (VInt 1).
Proof.
  destruct (formats_agree_on_solved (fun _ => "") Examples.opts25 "hevm"
              Examples.unsafe_result "unsafe" eq_refl (or_intror eq_refl))
    as (b & _ & Hj & Hc & Hb).
  assert (b = true) as -> by (by apply Hb).
  split; [exact Hj | exact Hc].
Defined.

(** X11. [dump_results] writes one JSON array per run identifier, in the
    order of the dictionary, with one record per result; the CSV file has
    one row for every result of every run, a row being the one of a result
    under the identifier of its run, and the keys of every row are the
    names of the header, in the order of the header. *)
Theorem dump_results_shape (py_str : pyval → string) (opts : Options)
    (solvers_results : list (string * list Result)) :
  let json := fst (dump_results py_str opts solvers_results) in
  let csv := snd (dump_results py_str opts solvers_results) in
  map fst json = map fst solvers_results
  ∧ Forall2 (fun j e => length (snd j) = length (snd e)) json solvers_results
  ∧ length csv = sum_list (map (fun e => length (snd e)) solvers_results)
  ∧ Forall (fun row => map fst row = csv_fieldnames) csv
  ∧ (∀ row, row ∈ csv ↔
       ∃ solver results r, (solver, results) ∈ solvers_results ∧ r ∈ results
                           ∧ row = csv_row py_str opts solver r).
Proof.
  simpl. split; [| split; [| split; [| split]]].
  - induction solvers_results as [|[k rs] sr IH]; [done |]. simpl. by rewrite IH.
  - induction solvers_results as [|[k rs] sr IH]; [constructor |].
    simpl. constructor; [| done]. simpl. by rewrite length_map.
  - induction solvers_results as [|[k rs] sr IH]; [done |].
    simpl. rewrite length_app, length_map. simpl in IH. by rewrite IH.
  - apply Forall_forall. intros row Hrow.
    apply list_elem_of_In, in_concat in Hrow as (rows & Hrows & Hrow).
    apply in_map_iff in Hrows as ([k rs] & <- & _).
    by apply in_map_iff in Hrow as (r & <- & _).
  - intros row. rewrite list_elem_of_In, in_concat. split.
    + intros (rows & Hrows & Hrow).
      apply in_map_iff in Hrows as ([k rs] & <- & Hin).
      apply in_map_iff in Hrow as (r & <- & Hr).
      exists k, rs, r. by rewrite !list_elem_of_In.
    + intros (k & rs & r & Hin & Hr & ->).
      exists (map (csv_row py_str opts k) rs). split.
      * apply in_map_iff. exists (k, rs). by rewrite <- list_elem_of_In.
      * apply in_map_iff. exists r. by rewrite <- list_elem_of_In.
Qed.

End PersistedShape.


Section Printable.

Import Bench.

Lemma string_ind2 (P : string → Prop) :
  P "" → (∀ c, P (String c "")) →
  (∀ c d s, P s → P (String d s) → P (String c (String d s))) →
  ∀ s, P s.
Proof.
  intros H0 H1 H2 s.
  assert (H : P s ∧ ∀ c, P (String c s)); [| by destruct H].
  induction s as [|d s [IH1 IH2]]; [by split |].
  split; [apply IH2 |]. intros c. by apply H2.
Qed.

Lemma replace2_cons2 (a b c d : ascii) (r s : string) :
  Py.replace2 a b r (String c (String d s))
  = if Ascii.eqb c a && Ascii.eqb d b then r +:+ Py.replace2 a b r s
    else String c (Py.replace2 a b r (String d s)).
Proof. reflexivity. Qed.

(** The replacement of a text starts with the new character or with the
    first character of the text. *)
Lemma replace2_starts (a b r x d : ascii) (s : string) :
  Spec.starts_with_char x (Py.replace2 a b (String r "") (String d s)) = true →
  r = x ∨ d = x.
Proof.
  destruct s as [|d' s]; simpl.
  - intros H%Ascii.eqb_eq. auto.
  - destruct (Ascii.eqb d a && Ascii.eqb d' b); simpl; intros H%Ascii.eqb_eq; auto.
Qed.

Lemma replace2_removes (a b r : ascii) (s : string) :
  r ≠ a → r ≠ b → Spec.has2 a b (Py.replace2 a b (String r "") s) = false.
Proof.
  intros Hra Hrb. induction s as [| c | c d s IH1 IH2] using string_ind2.
  - reflexivity.
  - simpl. by rewrite andb_false_r.
  - rewrite replace2_cons2. destruct (Ascii.eqb c a && Ascii.eqb d b) eqn:Hcd.
    + rewrite append_cons, append_nil_l. simpl. rewrite IH1.
      apply Ascii.eqb_neq in Hra. by rewrite Hra.
    + change (Spec.has2 a b (String c ?t))
        with (Ascii.eqb c a && Spec.starts_with_char b t || Spec.has2 a b t).
      rewrite IH2, orb_false_r.
      destruct (Ascii.eqb_spec c a) as [->|]; [| done]. simpl.
      destruct (Spec.starts_with_char b _) eqn:Hs; [| done].
      apply replace2_starts in Hs as [ ? | -> ]; [done |].
      by rewrite !Ascii.eqb_refl in Hcd.
Qed.

Lemma replace2_keeps_absent (a b a' b' r : ascii) (s : string) :
  r ≠ a → r ≠ b → Spec.has2 a b s = false →
  Spec.has2 a b (Py.replace2 a' b' (String r "") s) = false.
Proof.
  intros Hra Hrb. induction s as [| c | c d s IH1 IH2] using string_ind2.
  - done.
  - done.
  - change (Spec.has2 a b (String c (String d s)))
      with (Ascii.eqb c a && Ascii.eqb d b || Spec.has2 a b (String d s)).
    intros [Hcd Hds]%orb_false_iff.
    rewrite replace2_cons2. destruct (Ascii.eqb c a' && Ascii.eqb d b').
    + rewrite append_cons, append_nil_l. simpl. rewrite IH1.
      * apply Ascii.eqb_neq in Hra. by rewrite Hra.
      * simpl in Hds. by apply orb_false_iff in Hds as [_ ?].
    + change (Spec.has2 a b (String c ?t))
        with (Ascii.eqb c a && Spec.starts_with_char b t || Spec.has2 a b t).
      rewrite (IH2 Hds), orb_false_r.
      destruct (Ascii.eqb_spec c a) as [->|]; [| done]. simpl.
      destruct (Spec.starts_with_char b _) eqn:Hs; [| done].
      apply replace2_starts in Hs as [ ? | -> ]; [done |].
      by rewrite !Ascii.eqb_refl in Hcd.
Qed.

Lemma replace2_absent (a b : ascii) (r s : string) :
  Spec.has2 a b s = false → Py.replace2 a b r s = s.
Proof.
  induction s as [| c | c d s IH1 IH2] using string_ind2.
  - done.
  - done.
  - change (Spec.has2 a b (String c (String d s)))
      with (Ascii.eqb c a && Ascii.eqb d b || Spec.has2 a b (String d s)).
    intros [Hcd Hds]%orb_false_iff.
    rewrite replace2_cons2, Hcd. by rewrite (IH2 Hds).
Qed.

(** X12. The text that [printable_output] gives has no backslash followed
    by [n] and no backslash followed by [t]; so the function changes
    nothing when it is applied once more, and it leaves a text without
    these two sequences as it is. *)
Theorem printable_output_no_escapes (out : string) :
  Spec.has2 "\" "n" (printable_output out) = false
  ∧ Spec.has2 "\" "t" (printable_output out) = false
  ∧ printable_output (printable_output out) = printable_output out
  ∧ (Spec.has2 "\" "n" out = false → Spec.has2 "\" "t" out = false →
     printable_output out = out).
Proof.
  assert (Hn : Spec.has2 "\" "n" (printable_output out) = false).
  { unfold printable_output. apply replace2_keeps_absent; [done | done |].
    by apply replace2_removes. }
  assert (Ht : Spec.has2 "\" "t" (printable_output out) = false).
  { unfold printable_output. by apply replace2_removes. }
  assert (Hid : ∀ s, Spec.has2 "\" "n" s = false → Spec.has2 "\" "t" s = false →
                     printable_output s = s).
  { intros s H1 H2. unfold printable_output.
    rewrite (replace2_absent _ _ _ s H1). by apply replace2_absent. }
  split; [done |]. split; [done |]. split; [by apply Hid | apply Hid].
Qed.

Lemma splitlines_nil (s : string) : Py.splitlines s = [] ↔ s = "".
Proof.
  split; [| by intros ->].
  destruct s as [|c t]; [done |]. simpl.
  destruct (Py.is_linebreak c).
  - destruct t as [|d s']; [done |]. by destruct (_ && _).
  - by destruct (Py.splitlines t).
Qed.

Lemma splitlines_no_linebreak (s : string) :
  Forall (fun l => Spec.has_linebreak l = false) (Py.splitlines s).
Proof.
  induction s as [| c | c d s IH1 IH2] using string_ind2.
  - constructor.
  - simpl. destruct (Py.is_linebreak c) eqn:Hc; repeat constructor.
    simpl. by rewrite Hc.
  - change (Py.splitlines (String c (String d s)))
      with (if Py.is_linebreak c then
              if Ascii.eqb c "013" && Ascii.eqb d Py.nl
              then EmptyString :: Py.splitlines s
              else EmptyString :: Py.splitlines (String d s)
            else match Py.splitlines (String d s) with
                 | h :: rest => String c h :: rest
                 | [] => [String c EmptyString]
                 end).
    destruct (Py.is_linebreak c) eqn:Hc.
    + destruct (_ && _); by constructor.
    + destruct (Py.splitlines (String d s)) as [|h rest].
      * repeat constructor. simpl. by rewrite Hc.
      * apply Forall_cons in IH2 as [Hh Hrest]. constructor; [| done].
        simpl. by rewrite Hc.
Qed.

(** X13. [last_line_in_file] leaves the files as they are.  It raises
    [OSError] for a file that does not exist and [IndexError] for an empty
    file; for any other file it returns a line, which has no character
    that ends a line. *)
Theorem last_line_in_file_cases (fname : string) (fs : gmap string string) :
  match fs !! fname with
  | None => last_line_in_file fname fs = (fs, Raise (OSError fname))
  | Some EmptyString => last_line_in_file fname fs = (fs, Raise IndexError)
  | Some text =>
      ∃ l, last_line_in_file fname fs = (fs, Ret l)
           ∧ last (Py.splitlines text) = Some l
           ∧ Spec.has_linebreak l = false
  end.
Proof.
  unfold last_line_in_file, mbind, M_bind, read_file.
  destruct (fs !! fname) as [text|]; [| done].
  destruct text as [|c text]; [done |].
  destruct (last (Py.splitlines (String c text))) as [l|] eqn:Hlast.
  - exists l. split; [done |]. split; [done |].
    pose proof (splitlines_no_linebreak (String c text)) as Hall.
    rewrite Forall_forall in Hall. apply Hall. by eapply last_Some_elem_of.
  - apply last_None, splitlines_nil in Hlast. discriminate.
Qed.

End Printable.

Section MatrixShape.

Import Bench.

Lemma M_bind_ret {A B : Type} (m : M A) (f : A → M B) (fs fs' : gmap string string)
    (b : B) :
  mbind f m fs = (fs', Ret b) →
  ∃ fs1 a, m fs = (fs1, Ret a) ∧ f a fs1 = (fs', Ret b).
Proof.
  unfold mbind, M_bind. destruct (m fs) as [fs1 [a|e]]; [| discriminate]. eauto.
Qed.

(** A returned result refers to its case and has a permitted outcome, and
    the files are as before the execution. *)
Lemma execute_case_ret_inv (opts : Options) (world : list string → Run)
    (before after : Z) (tool : string) (extra_opts : list string) (case : Case)
    (fs fs' : gmap string string) (r : Result) :
  execute_case opts world before after tool extra_opts case fs = (fs', Ret r) →
  fs' = fs ∧ Bench.case r = case
  ∧ (result r = Some "safe" ∨ result r = Some "unsafe" ∨ result r = Some "unknown").
Proof.
  intros Hret.
  destruct (execute_case_start opts world before after tool extra_opts case fs)
    as [(fr & ft & run & Hstart) | [Hexit | (fr & _ & Hexit)]];
    [| rewrite Hexit in Hret; discriminate..].
  rewrite (execute_case_run _ _ before after _ _ _ _ _ _ _ Hstart) in Hret.
  destruct (parse_time_lines _ _) as [[[mem cpu] ex]|e]; [| discriminate].
  destruct (result_permitted _) eqn:Hp; [| discriminate].
  injection Hret as <- <-. simpl. split; [done |]. split; [done |].
  apply result_permitted_cases in Hp. destruct Hp as [-> | [-> | ->]]; auto.
Qed.

Lemma run_cases_ret (world : list string → Run) (opts : Options)
    (readings : nat → Z * Z) (call : string) (extra_opts : list string) (i : nat)
    (cases : list Case) (fs fs' : gmap string string) (res : list Result) :
  run_cases world opts readings call extra_opts i cases fs = (fs', Ret res) →
  fs' = fs
  ∧ Forall2 (fun c r => Bench.case r = c
                        ∧ (result r = Some "safe" ∨ result r = Some "unsafe"
                           ∨ result r = Some "unknown")) cases res.
Proof.
  revert i fs res. induction cases as [|c cases IH]; intros i fs res; simpl.
  - intros [= <- <-]. split; [done | constructor].
  - intros (fs1 & r & Hr & H)%M_bind_ret.
    apply M_bind_ret in H as (fs2 & rs & Hrs & [= <- <-]).
    apply execute_case_ret_inv in Hr as (-> & Hc & Ho).
    apply IH in Hrs as [-> Hall]. split; [done |]. by constructor.
Qed.

(** X14. When [run_all_tests] returns, its dictionary has one entry for
    each of the three tools, in the order of the table of tools and under
    the name of the tool, its version and the timestamp; every entry holds
    one result per case, in the order of the cases, each for its case and
    with a permitted outcome. *)
Theorem run_all_tests_shape (build : build_step → M unit)
    (get_version : string → M string) (world : list string → Run)
    (clock : string → nat → Z * Z) (timestamp : string) (opts : Options)
    (cases : list Case) (fs fs' : gmap string string)
    (results : list (string * list Result)) :
  run_all_tests build get_version world clock timestamp opts cases fs
  = (fs', Ret results) →
  (∃ v1 v2 v3,
     map fst results
     = ["hevm-cvc5-" +:+ v1 +:+ "-tstamp-" +:+ timestamp;
        "hevm-z3-" +:+ v2 +:+ "-tstamp-" +:+ timestamp;
        "halmos-" +:+ v3 +:+ "-tstamp-" +:+ timestamp])
  ∧ Forall (fun entry =>
              Forall2 (fun c r => Bench.case r = c
                                  ∧ (result r = Some "safe" ∨ result r = Some "unsafe"
                                     ∨ result r = Some "unknown"))
                      cases (snd entry)) results.
Proof.
  unfold run_all_tests, tools. simpl.
  intros (fs1 & [] & _ & H)%M_bind_ret.
  apply M_bind_ret in H as (fs2 & v1 & _ & H).
  apply M_bind_ret in H as (fs3 & res1 & [_ H1]%run_cases_ret & H).
  apply M_bind_ret in H as (fs4 & [] & _ & H).
  apply M_bind_ret in H as (fs5 & v2 & _ & H).
  apply M_bind_ret in H as (fs6 & res2 & [_ H2]%run_cases_ret & H).
  apply M_bind_ret in H as (fs7 & [] & _ & H).
  apply M_bind_ret in H as (fs8 & v3 & _ & H).
  apply M_bind_ret in H as (fs9 & res3 & [_ H3]%run_cases_ret & H).
  injection H as _ <-.
  split; [by exists v1, v2, v3 |]. by repeat constructor.
Qed.

Lemma run_all_tests_shape_witness :
  run_all_tests (fun _ => mret tt) (fun _ => mret "1.0")
    (Examples.world_of Examples.run_two_verdicts) (fun _ _ => (0, 1500000000)%Z)
    "2023-10-02-10:00" Examples.opts25 [Examples.foo] Examples.fs_stale
  = (Examples.fs_stale,
     Ret [("hevm-cvc5-1.0-tstamp-2023-10-02-10:00", [Examples.unsafe_result]);
          ("hevm-z3-1.0-tstamp-2023-10-02-10:00", [Examples.unsafe_result]);
          ("halmos-1.0-tstamp-2023-10-02-10:00", [Examples.unsafe_result])])
  ∧ Bench.case Examples.unsafe_result = Examples.foo.
Proof.
  assert (Hret : run_all_tests (fun _ => mret tt) (fun _ => mret "1.0")
            (Examples.world_of Examples.run_two_verdicts)
            (fun _ _ => (0, 1500000000)%Z)
            "2023-10-02-10:00" Examples.opts25 [Examples.foo] Examples.fs_stale
          = (Examples.fs_stale,
             Ret [("hevm-cvc5-1.0-tstamp-2023-10-02-10:00", [Examples.unsafe_result]);
                  ("hevm-z3-1.0-tstamp-2023-10-02-10:00", [Examples.unsafe_result]);
                  ("halmos-1.0-tstamp-2023-10-02-10:00", [Examples.unsafe_result])]))
    by (vm_compute; reflexivity).
  split; [exact Hret |].
  destruct (run_all_tests_shape _ _ _ _ _ _ _ _ _ _ Hret) as [_ Hall].
  apply Forall_cons in Hall as [Hfirst _]. simpl in Hfirst.
  apply Forall2_cons in Hfirst as [[Hcase _] _]. exact Hcase.
Defined.

End MatrixShape.

(** * Further properties of gen_graphs.py *)

Section Groups.

Import GenGraphs.

Lemma distinct_subset {A : Type} (eqb : A → A → bool) (l : list A) (x : A) :
  x ∈ distinct eqb l → x ∈ l.
Proof.
  induction l as [|y l IH]; [done |]. simpl.
  intros [->|[_ Hx]%list_elem_of_filter]%elem_of_cons.
  - apply list_elem_of_here.
  - apply list_elem_of_further. by apply IH.
Qed.

Lemma distinct_strings (l : list string) :
  NoDup (distinct String.eqb l) ∧ ∀ x, x ∈ distinct String.eqb l ↔ x ∈ l.
Proof.
  induction l as [|y l [IHnd IHin]]; [split; [constructor | done] |].
  simpl. split.
  - constructor.
    + intros [Hy _]%list_elem_of_filter. by rewrite String.eqb_refl in Hy.
    + by apply NoDup_filter.
  - intros x. rewrite !elem_of_cons, list_elem_of_filter, IHin.
    destruct (String.eqb_spec y x) as [->|Hne]; [tauto |].
    split; [tauto |]. intros [->|Hx]; [done |]. right. split; [done | done].
Qed.

(** X15. The solvers and the instances that the program iterates over are
    the values of the column of the table, each listed once. *)
Theorem groups_list_each_value_once (db : list row) :
  NoDup (get_solvers db)
  ∧ (∀ s, s ∈ get_solvers db ↔ ∃ r, r ∈ db ∧ r_solver r = s)
  ∧ all_solvers db = get_solvers db
  ∧ NoDup (all_instances db)
  ∧ (∀ n, n ∈ all_instances db ↔ ∃ r, r ∈ db ∧ r_name r = n).
Proof.
  unfold get_solvers, all_solvers, all_instances.
  destruct (distinct_strings (map r_solver db)) as [Hnd1 Hin1].
  destruct (distinct_strings (map r_name db)) as [Hnd2 Hin2].
  split; [done |]. split; [| split; [done | split; [done |]]].
  - intros s. rewrite Hin1, list_elem_of_fmap.
    split; [intros (r & -> & Hr) | intros (r & Hr & <-)]; eauto.
  - intros n. rewrite Hin2, list_elem_of_fmap.
    split; [intros (r & -> & Hr) | intros (r & Hr & <-)]; eauto.
Qed.

(** More than one group of timeout bounds means two rows with different
    bounds. *)
Lemma groups_mixed_timeouts (db : list row) :
  (1 < length (distinct Qeq_bool (map r_tout db)))%nat → Spec.mixed_timeouts db.
Proof.
  destruct db as [|r0 db]; [simpl; lia |]. simpl.
  destruct (filter _ _) as [|z rest] eqn:Hf; [simpl; lia |]. intros _.
  assert (Hz : z ∈ filter (fun y => negb (Qeq_bool (r_tout r0) y))
                      (distinct Qeq_bool (map r_tout db)))
    by (rewrite Hf; apply list_elem_of_here).
  apply list_elem_of_filter in Hz as [Hne Hz].
  apply distinct_subset, list_elem_of_fmap in Hz as (r & -> & Hr).
  exists r0, r. split; [apply list_elem_of_here |].
  split; [by apply list_elem_of_further |].
  intros Heq%Qeq_eq_bool. by rewrite Heq in Hne.
Qed.

(** X16. The validation passes, and then prints nothing, exactly when the
    table has a row and all its rows have the same timeout bound. *)
Theorem check_all_same_tout_accepts (db : list row) :
  check_all_same_tout db = ([], Ret tt) ↔ db ≠ [] ∧ ¬ Spec.mixed_timeouts db.
Proof.
  split.
  - intros Hok. split.
    + intros ->. discriminate Hok.
    + intros Hmixed.
      destruct (check_all_same_tout_rejects db (or_introl Hmixed)) as (tr & Hr & _).
      rewrite Hr in Hok. discriminate.
  - intros [Hne Hsame]. unfold check_all_same_tout.
    destruct (1 <? length (distinct Qeq_bool (map r_tout db)))%nat eqn:Hlen.
    + apply Nat.ltb_lt, groups_mixed_timeouts in Hlen. done.
    + destruct db as [|r0 db]; [done |]. reflexivity.
Qed.

End Groups.


Section CurveBounds.

Import GenGraphs.

Lemma solved_below_le_length (time : list Q) (a : Z) :
  (Spec.solved_below time a ≤ Z.of_nat (length time))%Z.
Proof.
  unfold Spec.solved_below. induction time as [|t time IH]; simpl; [lia |].
  destruct (Spec.below t a); simpl; lia.
Qed.

Lemma increasing_rows_length (rows : list (Z * Z)) (lo hi : Z) :
  StronglySorted Spec.rows_increase rows →
  Forall (fun r => (lo ≤ fst r ≤ hi)%Z) rows →
  (length rows ≤ Z.to_nat (hi - lo + 1))%nat.
Proof.
  revert lo. induction rows as [|r rows IH]; intros lo; simpl; [lia |].
  intros [Hall Hsorted]%StronglySorted_cons [Hr Hrows]%Forall_cons.
  assert (Hrows' : Forall (fun r' => (fst r + 1 ≤ fst r' ≤ hi)%Z) rows).
  { rewrite Forall_forall in *. intros r' Hr'.
    destruct (Hall r' Hr') as [Hlt _]. specialize (Hrows r' Hr'). lia. }
  specialize (IH (fst r + 1)%Z Hsorted Hrows'). lia.
Qed.

(** X17. Every count of the cumulative curve is between 0 and the number
    of elapsed times, and every bucket edge between 0 and 3599; the table
    has at least one row and at most one more than there are elapsed
    times. *)
Theorem cdf_rows_bounded (time : list Q) :
  (∀ num a, (num, a) ∈ cdf_rows time →
     (0 ≤ num ≤ Z.of_nat (length time))%Z ∧ (0 ≤ a ≤ 3599)%Z)
  ∧ (1 ≤ length (cdf_rows time) ≤ length time + 1)%nat.
Proof.
  destruct (cdf_rows_inv time) as (Hrows & Hsorted & _).
  assert (Hbound : ∀ num a, (num, a) ∈ cdf_rows time →
            (0 ≤ num ≤ Z.of_nat (length time))%Z ∧ (0 ≤ a ≤ 3599)%Z).
  { intros num a (Ha & -> & _)%Hrows.
    pose proof (solved_below_nonneg time a).
    pose proof (solved_below_le_length time a). lia. }
  split; [exact Hbound |]. split.
  - destruct (cdf_rows_head time) as [rest ->]. simpl. lia.
  - assert (Hlen : (length (cdf_rows time)
                    ≤ Z.to_nat (Z.of_nat (length time) - 0 + 1))%nat).
    { apply increasing_rows_length; [done |].
      apply Forall_forall. intros [num a] Hin. simpl.
      by destruct (Hbound num a Hin). }
    lia.
Qed.

Lemma mapM_res_length {A B : Type} (f : A → res B) (l : list A) (bs : list B) :
  mapM_res f l = Ret bs → length bs = length l.
Proof.
  revert bs. induction l as [|a l IH]; intros bs; simpl.
  - by intros [= <-].
  - destruct (f a) as [b|e]; [| discriminate]. simpl.
    destruct (mapM_res f l) as [bs'|e]; [| discriminate]. simpl.
    intros [= <-]. simpl. by rewrite (IH _ eq_refl).
Qed.

Lemma mapM_res_raises {A B : Type} (f : A → res B) (l : list A) (x : A) (e : exn) :
  x ∈ l → f x = Raise e → ∃ e', mapM_res f l = Raise e'.
Proof.
  intros Hx Hfx. induction l as [|a l IH]; [by apply elem_of_nil in Hx |].
  simpl. destruct (f a) as [b|e1] eqn:Hfa; simpl; [| by eexists].
  apply elem_of_cons in Hx as [->|Hx]; [congruence |].
  destruct (IH Hx) as [e' ->]. simpl. by eexists.
Qed.

(** X18. When [convert_to_cdf] returns, it has written the table of the
    times read from the lines, one time per line, and the number it
    returns is the number of lines; no count of the table exceeds this
    number. *)
Theorem convert_to_cdf_total (py_float : string → option Q) (mylines : list string)
    (fname2 : string) (tr : list event) (n : Z) :
  convert_to_cdf py_float mylines fname2 = (tr, Ret n) →
  n = Z.of_nat (length mylines)
  ∧ ∃ time, mapM_res (parse_time py_float) mylines = Ret time
            ∧ length time = length mylines
            ∧ tr = [CdfTable fname2 (cdf_rows time)]
            ∧ ∀ num a, (num, a) ∈ cdf_rows time → (num ≤ n)%Z.
Proof.
  unfold convert_to_cdf, mbind, W_bind, lift.
  destruct (mapM_res (parse_time py_float) mylines) as [time|e] eqn:Hparse;
    [| discriminate].
  simpl. intros [= <- <-]. split; [done |].
  exists time. pose proof (mapM_res_length _ _ _ Hparse) as Hlen.
  split; [done |]. split; [done |]. split; [done |].
  intros num a Hin. destruct (cdf_rows_bounded time) as [Hb _].
  destruct (Hb num a Hin) as [? _]. lia.
Qed.

Lemma convert_to_cdf_total_witness :
  convert_to_cdf Examples.py_float_two ["3.2"; "1.0"; " 3.2 x"] "out.gnuplotdata"
  = ([CdfTable "out.gnuplotdata" [(0, 0); (1, 2); (3, 4)]%Z], Ret 3%Z)
  ∧ (3 = Z.of_nat (length ["3.2"; "1.0"; " 3.2 x"]))%Z.
Proof.
  assert (H : convert_to_cdf Examples.py_float_two ["3.2"; "1.0"; " 3.2 x"]
                "out.gnuplotdata"
              = ([CdfTable "out.gnuplotdata" [(0, 0); (1, 2); (3, 4)]%Z], Ret 3%Z))
    by (vm_compute; reflexivity).
  split; [exact H |]. exact (proj1 (convert_to_cdf_total _ _ _ _ _ H)).
Defined.

Lemma lstrip_all_space (l : string) : Spec.all_space l = true → Py.lstrip l = "".
Proof.
  induction l as [|c l IH]; [done |]. simpl.
  intros [Hc Hl]%andb_true_iff. rewrite Hc. auto.
Qed.

(** X19. A line that is empty or made of whitespace makes [convert_to_cdf]
    raise, and then no table is written. *)
Theorem convert_to_cdf_blank_line (py_float : string → option Q)
    (mylines : list string) (fname2 l : string) :
  l ∈ mylines → Spec.all_space l = true →
  parse_time py_float l = Raise IndexError
  ∧ ∃ e, convert_to_cdf py_float mylines fname2 = ([], Raise e).
Proof.
  intros Hl Hspace.
  assert (Hparse : parse_time py_float l = Raise IndexError).
  { unfold parse_time, Py.first_field. by rewrite (lstrip_all_space _ Hspace). }
  split; [done |].
  destruct (mapM_res_raises _ _ _ _ Hl Hparse) as [e He].
  exists e. unfold convert_to_cdf, mbind, W_bind, lift. by rewrite He.
Qed.

Lemma convert_to_cdf_blank_line_witness :
  convert_to_cdf Examples.py_float_two ["3.2"; ""; "1.0"] "out.gnuplotdata"
  = ([], Raise IndexError).
Proof.
  destruct (convert_to_cdf_blank_line Examples.py_float_two ["3.2"; ""; "1.0"]
              "out.gnuplotdata" "") as (_ & e & He).
  - apply list_elem_of_further, list_elem_of_here.
  - reflexivity.
  - rewrite He. vm_compute in He. by injection He as <-.
Defined.

Lemma cdf_file_name (solver : string) :
  ("graphs/run-" +:+ solver +:+ ".csv") +:+ ".gnuplotdata"
  = "graphs/run-" +:+ solver +:+ ".csv.gnuplotdata".
Proof. by rewrite !append_assoc. Qed.

Lemma solved_times_read (sql_text : Q → string) (py_float : string → option Q)
    (db : list row) (solver : string) :
  (∀ r, r ∈ db → parse_time py_float (sql_text (r_t r)) = Ret (r_t r)) →
  mapM_res (parse_time py_float) (map sql_text (solved_times db solver))
  = Ret (solved_times db solver).
Proof.
  unfold solved_times. induction db as [|r db IH]; intros Hread; [done |].
  assert (Hdb : ∀ r', r' ∈ db → parse_time py_float (sql_text (r_t r')) = Ret (r_t r'))
    by (intros r' Hr'; apply Hread; by apply list_elem_of_further).
  rewrite filter_cons. destruct (decide _) as [Hr|Hr]; [| by apply IH].
  simpl. rewrite (Hread r) by apply list_elem_of_here. simpl.
  by rewrite (IH Hdb).
Qed.

Lemma solved_times_length (db : list row) (solver : string) :
  length (solved_times db solver)
  = length (filter (fun r => r_solver r = solver ∧ r_result r ≠ "unknown") db).
Proof.
  unfold solved_times. rewrite length_map.
  induction db as [|r db IH]; [done |].
  rewrite !filter_cons.
  destruct (String.eqb_spec (r_solver r) solver) as [Hs|Hs];
    destruct (String.eqb_spec (r_result r) "unknown") as [Hu|Hu]; simpl;
    repeat case_decide; simpl; rewrite ?IH; tauto.
Qed.

Lemma gen_cdf_files_loop_read (sql_text : Q → string) (py_float : string → option Q)
    (db : list row) (solvers : list string) :
  (∀ r, r ∈ db → parse_time py_float (sql_text (r_t r)) = Ret (r_t r)) →
  gen_cdf_files_loop sql_text py_float db solvers
  = (map (fun solver => CdfTable ("graphs/run-" +:+ solver +:+ ".csv.gnuplotdata")
                          (cdf_rows (solved_times db solver))) solvers,
     Ret (map (fun solver => ("graphs/run-" +:+ solver +:+ ".csv.gnuplotdata",
                              solver,
                              Z.of_nat (length (solved_times db solver)))) solvers)).
Proof.
  intros Hread.
  induction solvers as [|solver solvers IH]; [done |].
  simpl. unfold convert_to_cdf, mbind at 2, W_bind at 2, lift.
  rewrite (solved_times_read _ _ _ _ Hread). simpl. rewrite IH. simpl.
  by rewrite length_map, app_nil_r, cdf_file_name.
Qed.

(** X20. When the text that the database prints for every time is read
    back as that time, [gen_cdf_files] writes for every solver the curve of
    the times of its results other than [unknown], and the number it
    records for the solver is the number of these results. *)
Theorem gen_cdf_files_read (sql_text : Q → string) (py_float : string → option Q)
    (db : list row) :
  (∀ r, r ∈ db → parse_time py_float (sql_text (r_t r)) = Ret (r_t r)) →
  gen_cdf_files sql_text py_float db
  = (PrintSolvers (get_solvers db)
       :: map (fun solver =>
                 CdfTable ("graphs/run-" +:+ solver +:+ ".csv.gnuplotdata")
                          (cdf_rows (solved_times db solver))) (get_solvers db),
     Ret (map (fun solver =>
                 ("graphs/run-" +:+ solver +:+ ".csv.gnuplotdata", solver,
                  Z.of_nat (length (filter (fun r => r_solver r = solver
                                                     ∧ r_result r ≠ "unknown") db))))
              (get_solvers db))).
Proof.
  intros Hread. unfold gen_cdf_files, mbind, W_bind, emit.
  rewrite (gen_cdf_files_loop_read _ _ _ _ Hread). simpl.
  do 2 f_equal. apply map_ext. intros solver. by rewrite solved_times_length.
Qed.

Lemma gen_cdf_files_read_witness :
  gen_cdf_files Examples.sql_text_two Examples.py_float_two Examples.db_two
  = ([PrintSolvers ["A"; "B"];
      CdfTable "graphs/run-A.csv.gnuplotdata" [(0, 0); (1, 4)]%Z;
      CdfTable "graphs/run-B.csv.gnuplotdata" [(0, 0)%Z]],
     Ret [("graphs/run-A.csv.gnuplotdata", "A", 1%Z);
          ("graphs/run-B.csv.gnuplotdata", "B", 0%Z)]).
Proof.
  rewrite (gen_cdf_files_read Examples.sql_text_two Examples.py_float_two
             Examples.db_two).
  - vm_compute. reflexivity.
  - intros r Hr. repeat (apply elem_of_cons in Hr as [->|Hr]; [reflexivity |]).
    by apply elem_of_nil in Hr.
Defined.

End CurveBounds.

Section Comparison.

Import GenGraphs.

(** A loop whose body always returns does return, and what it does is what
    its bodies do, in order. *)
Lemma for_each_returns {A : Type} (l : list A) (body : A → W unit)
    (trace : A → list event) :
  (∀ x, x ∈ l → body x = (trace x, Ret tt)) →
  for_each l body = (flat_map trace l, Ret tt).
Proof.
  induction l as [|x l IH]; intros Hbody; [done |].
  simpl. rewrite (Hbody x) by apply list_elem_of_here.
  rewrite IH by (intros y Hy; apply Hbody; by apply list_elem_of_further).
  reflexivity.
Qed.

(** What [gen_comparative_graphs] does for the solvers [solver] and
    [solver2]. *)
Let pair_trace (db : list row) (solver solver2 : string) : list event :=
  if String.leb solver2 solver then []
  else [CompareTable ("graphs/compare-" +:+ solver +:+ "-" +:+ solver2
                        +:+ ".gnuplotdata")
                     (compare_rows db solver solver2);
        Print ("generating graph: " +:+ solver +:+ "-vs-" +:+ solver2 +:+ ".eps");
        Print ("generating graph: " +:+ solver +:+ "-vs-" +:+ solver2 +:+ ".png");
        Gnuplot "compare.gnuplot"].

Lemma gen_comparative_graphs_trace (db : list row) :
  gen_comparative_graphs db
  = (flat_map (fun solver => flat_map (pair_trace db solver) (get_solvers db))
              (get_solvers db), Ret tt).
Proof.
  unfold gen_comparative_graphs.
  apply for_each_returns. intros solver _.
  apply for_each_returns. intros solver2 _.
  unfold pair_trace. by destruct (String.leb solver2 solver).
Qed.

(** X21. [gen_comparative_graphs] always returns.  It writes a table
    exactly for the pairs of solvers of which the first is before the
    second in the order of strings, so never for a solver with itself, and
    for two different solvers in exactly one of the two orders; after each
    table it runs gnuplot. *)
Theorem gen_comparative_graphs_pairs (db : list row) :
  ∃ tr, gen_comparative_graphs db = (tr, Ret tt)
        ∧ (∀ fname rows, CompareTable fname rows ∈ tr ↔
             ∃ solver solver2,
               solver ∈ get_solvers db ∧ solver2 ∈ get_solvers db
               ∧ String.leb solver2 solver = false
               ∧ fname = "graphs/compare-" +:+ solver +:+ "-" +:+ solver2
                           +:+ ".gnuplotdata"
               ∧ rows = compare_rows db solver solver2)
        ∧ (∀ solver, String.leb solver solver = true)
        ∧ (∀ solver solver2, solver ≠ solver2 →
             String.leb solver2 solver = false ↔ String.leb solver solver2 = true).
Proof.
  eexists. split; [apply gen_comparative_graphs_trace |]. split; [| split].
  - intros fname rows. rewrite list_elem_of_In, in_flat_map. split.
    + intros (solver & Hs & Hin). apply in_flat_map in Hin as (solver2 & Hs2 & Hin).
      exists solver, solver2. rewrite !list_elem_of_In.
      unfold pair_trace in Hin.
      destruct (String.leb solver2 solver); [destruct Hin |].
      destruct Hin as [[= <- <-] | [? | [? | [? | []]]]]; done.
    + intros (solver & solver2 & Hs & Hs2 & Hleb & -> & ->).
      exists solver. split; [by apply list_elem_of_In |].
      apply in_flat_map. exists solver2. split; [by apply list_elem_of_In |].
      unfold pair_trace. rewrite Hleb. by left.
  - intros solver. apply Is_true_true. change (String.le solver solver).
    reflexivity.
  - intros solver solver2 Hne. split.
    + intros Hleb. destruct (String.leb_total solver solver2) as [H|H]; [done |].
      congruence.
    + intros Hleb. destruct (String.leb solver2 solver) eqn:H; [| done].
      destruct Hne. by apply String.leb_antisym.
Qed.

(** X22. The table of two solvers has a row for every pair of a result of
    the first and a result of the second on the same case, whether solved
    or not, and only these rows; the time of a result in it is the timeout
    bound when the outcome is [unknown] and the measured time otherwise. *)
Theorem compare_rows_members (db : list row) (solver solver2 name : string)
    (ta tb : Q) :
  (ta, tb, name) ∈ compare_rows db solver solver2
  ↔ ∃ a b, a ∈ db ∧ b ∈ db
           ∧ r_solver a = solver ∧ r_solver b = solver2
           ∧ r_name a = name ∧ r_name b = name
           ∧ ta = (if String.eqb (r_result a) "unknown" then r_tout a else r_t a)
           ∧ tb = (if String.eqb (r_result b) "unknown" then r_tout b else r_t b).
Proof.
  unfold compare_rows. rewrite list_elem_of_In, in_flat_map. split.
  - intros (a & Ha & Hin). apply in_flat_map in Hin as (b & Hb & Hin).
    exists a, b. rewrite !list_elem_of_In.
    destruct (String.eqb_spec (r_solver a) solver) as [Hs1|]; [| destruct Hin].
    destruct (String.eqb_spec (r_solver b) solver2) as [Hs2|]; [| destruct Hin].
    destruct (String.eqb_spec (r_name a) (r_name b)) as [Hn|]; [| destruct Hin].
    destruct Hin as [[= <- <- <-] | []]. unfold time_or_tout. done.
  - intros (a & b & Ha & Hb & <- & <- & <- & Hn & -> & ->).
    exists a. split; [by apply list_elem_of_In |].
    apply in_flat_map. exists b. split; [by apply list_elem_of_In |].
    rewrite !String.eqb_refl, Hn, String.eqb_refl. simpl. by left.
Qed.

End Comparison.

Section BoxTable.

Import GenGraphs.

(** The loop over the rows selected for an instance never fails its
    assertion; it adds the solvers of the rows to the dictionary, and sets
    the timeout bound as soon as there is a row. *)
Lemma box_row_loop_selected (instance : string) (rows : list row)
    (st : gmap string Q * option Q) :
  Forall (fun l => r_name l = instance) rows →
  ∃ st', box_row_loop instance st rows = Ret st'
         ∧ (∀ s, is_Some (fst st' !! s)
                 ↔ is_Some (fst st !! s) ∨ ∃ r, r ∈ rows ∧ r_solver r = s)
         ∧ (is_Some (snd st) ∨ rows ≠ [] → is_Some (snd st')).
Proof.
  intros Hrows. revert st.
  induction Hrows as [|l rows Hl _ IH]; intros st.
  - exists st. split; [done |]. split.
    + intros s. split; [auto |]. intros [|(r & Hr & _)]; [done |].
      by apply elem_of_nil in Hr.
    + by intros [|].
  - destruct st as [solve_time tout].
    destruct (IH (<[r_solver l := Py.min (time_or_tout l) (r_tout l)]> solve_time,
                  Some (r_tout l))) as (st' & Hloop & Hdom & Htout).
    exists st'. split.
    { simpl. rewrite Hl, String.eqb_refl. exact Hloop. }
    split.
    + intros s. rewrite Hdom. simpl. rewrite lookup_insert_is_Some.
      setoid_rewrite elem_of_cons. split.
      * intros [[<- | [_ ?]] | (r & Hr & Hs)]; eauto.
      * intros [? | (r & [-> | Hr] & Hs)]; eauto.
        destruct (decide (r_solver l = s)); eauto.
    + intros _. apply Htout. left. by eexists.
Qed.

Lemma filter_selected (db : list row) (instance : string) :
  Forall (fun l => r_name l = instance)
         (filter (fun l => String.eqb (r_name l) instance) db).
Proof.
  apply Forall_forall. intros l [Hl _]%list_elem_of_filter.
  apply String.eqb_eq. by destruct (String.eqb (r_name l) instance).
Qed.

(** The columns of a line are written when all the solvers are in the
    dictionary. *)
Lemma box_columns_returns (instance : string) (solve_time : gmap string Q)
    (tout : option Q) (solvers : list string) :
  (solvers ≠ [] → is_Some tout) →
  (∀ s, s ∈ solvers → is_Some (solve_time !! s)) →
  ∃ ts, box_columns instance solve_time tout solvers = ([], Ret ts)
        ∧ length ts = length solvers.
Proof.
  intros Htout Hall. induction solvers as [|s solvers IH]; [by exists [] |].
  simpl. destruct Htout as [q ->]; [done |].
  destruct (Hall s) as [v ->]; [apply list_elem_of_here |].
  destruct IH as (ts & Hts & Hlen).
  - intros _. by eexists.
  - intros s' Hs'. apply Hall. by apply list_elem_of_further.
  - exists (v :: ts). destruct solvers as [|s' solvers'].
    + simpl in *. injection Hts as <-. done.
    + split; [| simpl; by rewrite Hlen].
      change (box_columns instance solve_time (Some q) (s' :: solvers'))
        with (box_columns instance solve_time (Some q) (s' :: solvers')) in Hts.
      unfold mbind, W_bind. by rewrite Hts.
Qed.

Lemma box_columns_needs (instance : string) (solve_time : gmap string Q)
    (tout : option Q) (solvers : list string) (tr : list event) (ts : list Q) :
  box_columns instance solve_time tout solvers = (tr, Ret ts) →
  ∀ s, s ∈ solvers → is_Some (solve_time !! s).
Proof.
  revert tr ts. induction solvers as [|s solvers IH]; intros tr ts; simpl.
  - intros _ s Hs. by apply elem_of_nil in Hs.
  - destruct tout as [tout|]; [| discriminate].
    destruct (solve_time !! s) as [v|] eqn:Hs; [| discriminate].
    intros (tr1 & ts' & tr2 & Hcols & _)%W_bind_ret.
    intros s' [->|Hs']%elem_of_cons; [by eexists |]. by eapply IH.
Qed.

(** Once all the solvers are in the dictionary, every line is written. *)
Lemma box_lines_returns (db : list row) (solvers instances : list string) (i : nat)
    (st : gmap string Q * option Q) :
  (solvers ≠ [] → is_Some (snd st)) →
  (∀ s, s ∈ solvers → is_Some (fst st !! s)) →
  ∃ lines, box_lines db solvers i instances st = ([], Ret lines)
           ∧ length lines = length instances
           ∧ Forall (fun line => length (snd line) = length solvers) lines.
Proof.
  revert i st. induction instances as [|inst instances IH]; intros i st Htout Hall.
  - exists []. by repeat split.
  - simpl.
    destruct (box_row_loop_selected inst _ st (filter_selected db inst))
      as (st' & -> & Hdom & Htout').
    destruct (box_columns_returns inst (fst st') (snd st') solvers)
      as (ts & Hts & Hlen).
    { intros Hne. apply Htout'. left. by apply Htout. }
    { intros s Hs. apply Hdom. left. by apply Hall. }
    destruct (IH (S i) st') as (lines & Hlines & Hlen' & Hcols).
    { intros Hne. apply Htout'. left. by apply Htout. }
    { intros s Hs. apply Hdom. left. by apply Hall. }
    eexists. unfold lift, mbind, W_bind. rewrite Hts, Hlines. simpl.
    split; [reflexivity |]. split; [simpl; by rewrite Hlen' |]. by constructor.
Qed.

(** The rows selected for an instance are the rows of the instance. *)
Lemma filter_instance (db : list row) (instance : string) (r : row) :
  r ∈ filter (fun l => String.eqb (r_name l) instance) db
  ↔ r ∈ db ∧ r_name r = instance.
Proof.
  rewrite list_elem_of_filter. split.
  - intros [Hn Hr]. split; [done |]. apply String.eqb_eq.
    by destruct (String.eqb (r_name r) instance).
  - intros [Hr <-]. split; [| done]. by rewrite String.eqb_refl.
Qed.

(** When every solver has a result for the first instance, every line is
    written. *)
Lemma box_lines_first_returns (db : list row) (solvers instances : list string)
    (instance : string) (i : nat) :
  (∀ s, s ∈ solvers → ∃ r, r ∈ db ∧ r_name r = instance ∧ r_solver r = s) →
  ∃ lines, box_lines db solvers i (instance :: instances) (∅, None) = ([], Ret lines).
Proof.
  intros Hall. cbn [box_lines].
  destruct (box_row_loop_selected instance _ (∅, None) (filter_selected db instance))
    as (st' & -> & Hdom & Htout).
  assert (Hsome : ∀ s, s ∈ solvers → is_Some (fst st' !! s)).
  { intros s Hs. apply Hdom. right. destruct (Hall s Hs) as (r & Hr & Hn & Hsol).
    exists r. split; [| done]. by apply filter_instance. }
  assert (Htout' : solvers ≠ [] → is_Some (snd st')).
  { intros Hne. apply Htout. right. destruct solvers as [|s solvers']; [done |].
    destruct (Hall s) as (r & Hr & Hn & _); [apply list_elem_of_here |].
    intros Hnil.
    assert (Hin : r ∈ filter (fun l => String.eqb (r_name l) instance) db)
      by by apply filter_instance.
    rewrite Hnil in Hin. by apply elem_of_nil in Hin. }
  destruct (box_columns_returns instance (fst st') (snd st') solvers Htout' Hsome)
    as (ts & Hts & _).
  destruct (box_lines_returns db solvers instances (S i) st' Htout' Hsome)
    as (lines & Hlines & _).
  eexists. unfold lift, mbind, W_bind. rewrite Hts, Hlines. reflexivity.
Qed.

(** X23. The data of the per-instance table are written in full exactly
    when every solver has a result for the first instance: the check for a
    solver that was not run can fail at the first line only, because the
    dictionary of the times is never emptied between the lines. *)
Theorem box_lines_first_instance (db : list row) (solvers instances : list string)
    (instance : string) (i : nat) :
  (∃ tr lines,
     box_lines db solvers i (instance :: instances) (∅, None) = (tr, Ret lines))
  ↔ ∀ s, s ∈ solvers → ∃ r, r ∈ db ∧ r_name r = instance ∧ r_solver r = s.
Proof.
  split.
  - intros (tr & lines & H) s Hs. cbn [box_lines] in H.
    destruct (box_row_loop_selected instance _ (∅, None) (filter_selected db instance))
      as (st' & Hrows & Hdom & _).
    rewrite Hrows in H.
    apply W_bind_ret in H as (tr1 & st1 & tr2 & Hl & H & _).
    unfold lift in Hl. injection Hl as <- <-.
    apply W_bind_ret in H as (tr3 & ts & tr4 & Hcols & _).
    pose proof (box_columns_needs _ _ _ _ _ _ Hcols s Hs) as Hsome.
    apply Hdom in Hsome as [Hsome | (r & Hr & Hsol)].
    + simpl in Hsome. rewrite lookup_empty in Hsome. by destruct Hsome.
    + apply filter_instance in Hr as [Hr Hn]. by exists r.
  - intros Hall.
    destruct (box_lines_first_returns db solvers instances instance i Hall)
      as [lines Hlines].
    by exists [], lines.
Qed.

Lemma box_columns_quiet (instance : string) (solve_time : gmap string Q)
    (tout : option Q) (solvers : list string) (tr : list event) (ts : list Q) :
  box_columns instance solve_time tout solvers = (tr, Ret ts) →
  tr = [] ∧ length ts = length solvers.
Proof.
  revert tr ts. induction solvers as [|s solvers IH]; intros tr ts; simpl.
  - by intros [= <- <-].
  - destruct tout as [tout|]; [| discriminate].
    destruct (solve_time !! s) as [t|] eqn:Hs; [| discriminate].
    intros (tr1 & ts' & tr2 & Hcols & [= <- <-] & ->)%W_bind_ret.
    destruct (IH _ _ Hcols) as [-> Hlen]. simpl. by rewrite Hlen.
Qed.

(** What a line of the table is made of, when the lines are written. *)
Lemma box_lines_cons (db : list row) (solvers instances : list string)
    (instance : string) (i : nat) (st : gmap string Q * option Q)
    (tr : list event) (lines : list (nat * string * list Q)) :
  box_lines db solvers i (instance :: instances) st = (tr, Ret lines) →
  ∃ st' ts lines',
    box_row_loop instance st
      (filter (fun l => String.eqb (r_name l) instance) db) = Ret st'
    ∧ box_columns instance (fst st') (snd st') solvers = ([], Ret ts)
    ∧ box_lines db solvers (S i) instances st' = (tr, Ret lines')
    ∧ lines = (S i, Py.replace_char "_" "\\\_" (Py.basename instance), ts) :: lines'.
Proof.
  cbn [box_lines].
  intros (tr1 & st' & tr2 & Hrows & H & ->)%W_bind_ret.
  unfold lift in Hrows. injection Hrows as <- Hrows.
  apply W_bind_ret in H as (tr3 & ts & tr4 & Hcols & H & ->).
  apply W_bind_ret in H as (tr5 & lines' & tr6 & Hlines & [= <- <-] & ->).
  destruct (box_columns_quiet _ _ _ _ _ _ Hcols) as [-> _].
  exists st', ts, lines'. by rewrite app_nil_r.
Qed.

(** X24. When the data of the per-instance table are written, nothing is
    printed on the way, there is one line per instance, in the order of the
    instances, numbered from one past the start index, labelled by the base
    name of the instance with its underscores escaped, and every line has
    one column per solver. *)
Theorem box_lines_shape (db : list row) (solvers instances : list string) (i : nat)
    (st : gmap string Q * option Q) (tr : list event)
    (lines : list (nat * string * list Q)) :
  box_lines db solvers i instances st = (tr, Ret lines) →
  tr = []
  ∧ map fst lines
    = zip (seq (S i) (length instances))
          (map (fun instance => Py.replace_char "_" "\\\_" (Py.basename instance))
               instances)
  ∧ Forall (fun line => length (snd line) = length solvers) lines.
Proof.
  revert i st tr lines.
  induction instances as [|instance instances IH]; intros i st tr lines H.
  - simpl in H. injection H as <- <-. by repeat split.
  - apply box_lines_cons in H as (st' & ts & lines' & _ & Hcols & Hlines & ->).
    destruct (IH _ _ _ _ Hlines) as (-> & Hfst & Hlen).
    destruct (box_columns_quiet _ _ _ _ _ _ Hcols) as [_ Hts].
    split; [done |]. split.
    + simpl. by rewrite Hfst.
    + by constructor.
Qed.

Lemma box_lines_shape_witness :
  let lines := [(1%nat, "Foo.sol:Foo", [3.2; 25]%Q)] in
  box_lines Examples.db_two ["A"; "B"] 0 ["src/unsafe/1tx-abstract/Foo.sol:Foo"] (∅, None)
  = ([], Ret lines)
  ∧ map fst lines = [(1%nat, "Foo.sol:Foo")]
  ∧ Forall (fun line => length (snd line) = 2%nat) lines.
Proof.
  assert (H : box_lines Examples.db_two ["A"; "B"] 0
                ["src/unsafe/1tx-abstract/Foo.sol:Foo"] (∅, None)
              = ([], Ret [(1%nat, "Foo.sol:Foo", [3.2; 25]%Q)]))
    by (vm_compute; reflexivity).
  split; [exact H |].
  exact (proj2 (box_lines_shape _ _ _ _ _ _ _ H)).
Defined.



End BoxTable.

Section MainProgram.

Import GenGraphs.

Lemma check_all_same_tout_passes (db : list row) :
  db ≠ [] → ¬ Spec.mixed_timeouts db → check_all_same_tout db = ([], Ret tt).
Proof.
  intros Hne Hsame. unfold check_all_same_tout.
  destruct (1 <? length (distinct Qeq_bool (map r_tout db)))%nat eqn:Hlen.
  - apply Nat.ltb_lt, groups_mixed_timeouts in Hlen. done.
  - destruct db as [|r0 db]; [done |]. reflexivity.
Qed.

(** X26. The main program runs to its end on a table that has a row, one
    timeout bound, times that are read back from their text as they are,
    and a result of every solver for every instance.  It then makes the
    directory, writes and plots the cumulative curves, then the pairwise
    comparisons, then the per-instance table, in this order, and
    returns. *)
Theorem main_completes (sql_text : Q → string) (py_float : string → option Q)
    (db : list row) :
  db ≠ [] →
  ¬ Spec.mixed_timeouts db →
  (∀ r, r ∈ db → parse_time py_float (sql_text (r_t r)) = Ret (r_t r)) →
  (∀ r1 r2, r1 ∈ db → r2 ∈ db →
     ∃ r, r ∈ db ∧ r_name r = r_name r1 ∧ r_solver r = r_solver r2) →
  ∃ tr_cdf cdf_files tr_compare lines,
    gen_cdf_files sql_text py_float db = (tr_cdf, Ret cdf_files)
    ∧ gen_comparative_graphs db = (tr_compare, Ret tt)
    ∧ box_lines db (all_solvers db) 0 (all_instances db) (∅, None) = ([], Ret lines)
    ∧ main sql_text py_float db
      = ((Mkdir "graphs" :: tr_cdf)
           ++ [Gnuplot "cdf.gnuplot"; Print "graph generated: cdf.eps";
               Print "graph generated: cdf.png"]
           ++ tr_compare
           ++ [BoxTable "boxdata.dat" lines; Print "Generating boxchart.eps";
               Print "Generating boxchart.png"; Gnuplot "boxplot.gnuplot"],
         Ret tt)%list.
Proof.
  intros Hne Hsame Hread Hfull.
  pose proof (check_all_same_tout_passes db Hne Hsame) as Hcheck.
  assert (Hcdf : ∃ tr_cdf cdf_files,
             gen_cdf_files sql_text py_float db = (tr_cdf, Ret cdf_files)).
  { unfold gen_cdf_files, mbind, W_bind, emit.
    rewrite (gen_cdf_files_loop_read _ _ _ _ Hread). by do 2 eexists. }
  destruct Hcdf as (tr_cdf & cdf_files & Hcdf).
  assert (Hcmp : ∃ tr_compare, gen_comparative_graphs db = (tr_compare, Ret tt))
    by (eexists; apply gen_comparative_graphs_trace).
  destruct Hcmp as [tr_compare Hcmp].
  assert (Hbox : ∃ lines,
             box_lines db (all_solvers db) 0 (all_instances db) (∅, None)
             = ([], Ret lines)).
  { destruct (distinct_strings (map r_name db)) as [_ Hinst].
    destruct (distinct_strings (map r_solver db)) as [_ Hsol].
    unfold all_instances, all_solvers.
    destruct (distinct String.eqb (map r_name db)) as [|instance instances] eqn:Hd.
    - destruct db as [|r0 db']; [done |]. discriminate Hd.
    - apply box_lines_first_returns. intros s Hs.
      assert (Hi : instance ∈ map r_name db)
        by (apply Hinst; apply list_elem_of_here).
      apply Hsol in Hs.
      apply list_elem_of_fmap in Hi as (r1 & -> & Hr1).
      apply list_elem_of_fmap in Hs as (r2 & -> & Hr2).
      exact (Hfull r1 r2 Hr1 Hr2). }
  destruct Hbox as [lines Hbox].
  exists tr_cdf, cdf_files, tr_compare, lines.
  split; [exact Hcdf |]. split; [exact Hcmp |]. split; [exact Hbox |].
  unfold main, gen_cdf_graph, gen_boxgraphs.
  rewrite Hcheck, Hcdf, Hcmp, Hbox.
  unfold mbind, W_bind, emit. simpl.
  by rewrite ?app_nil_r, <- ?app_assoc.
Qed.

Lemma main_completes_witness :
  ∃ tr, main Examples.sql_text_two Examples.py_float_two Examples.db_two
        = (Mkdir "graphs" :: tr, Ret tt).
Proof.
  destruct (main_completes Examples.sql_text_two Examples.py_float_two Examples.db_two)
    as (tr_cdf & cdf_files & tr_compare & lines & _ & _ & _ & Hmain).
  - discriminate.
  - intros (r1 & r2 & Hr1 & Hr2 & Hne). apply Hne.
    repeat (apply elem_of_cons in Hr1 as [-> | Hr1]);
      repeat (apply elem_of_cons in Hr2 as [-> | Hr2]);
      try (by apply elem_of_nil in Hr1); try (by apply elem_of_nil in Hr2);
      reflexivity.
  - intros r Hr.
    repeat (apply elem_of_cons in Hr as [-> | Hr]; [by vm_compute |]).
    by apply elem_of_nil in Hr.
  - intros r1 r2 Hr1 Hr2. exists r2. split; [done |]. split; [| done].
    repeat (apply elem_of_cons in Hr1 as [-> | Hr1]);
      repeat (apply elem_of_cons in Hr2 as [-> | Hr2]);
      try (by apply elem_of_nil in Hr1); try (by apply elem_of_nil in Hr2);
      reflexivity.
  - eexists. exact Hmain.
Defined.

End MainProgram.
